(** * Page hierarchy service and comment list item

    A shallow embedding of

    - [apps/server/src/core/page/services/page.service.ts] (class
      [PageService]: [create], [update], [updateState],
      [getSidebarPages], [movePage]), and
    - [client/src/features/comment/components/comment-list-item.tsx]
      (the [handleUpdateComment] handler of [CommentListItem]).

    Asynchronous code is sequential here: every [await] is a bind of a
    state-and-exception monad.  The [pages] table is a list of rows, the
    repository and the query builder are functions over it. *)

From Stdlib Require Import String Ascii List Bool Arith NArith Lia.
From Stdlib Require Import Permutation Sorted.
Import ListNotations.
Open Scope string_scope.

Set Implicit Arguments.

(* ================================================================== *)
(** * JavaScript values the service distinguishes *)

Module Js.

(** A value of TypeScript type [string] when [strictNullChecks] is off:
    the service assigns [undefined] to a [string] variable and tests
    such values for truthiness. *)
Inductive MaybeStr : Type :=
| Undefined
| Null
| Str (s : string).

(** Truthiness as tested by [if (v)] : [undefined], [null] and the empty
    string are falsy. *)
Definition truthy (v : MaybeStr) : bool :=
  match v with
  | Str s => negb (s =? "")
  | Undefined | Null => false
  end.

(** Strict equality [a === b]. *)
Definition strict_eq (a b : MaybeStr) : bool :=
  match a, b with
  | Undefined, Undefined => true
  | Null, Null => true
  | Str x, Str y => x =? y
  | _, _ => false
  end.

(** The string carried by a value known to be a string. *)
Definition str_of (v : MaybeStr) : string :=
  match v with
  | Str s => s
  | Undefined | Null => ""
  end.

(** A nullable column read back from the store: SQL NULL is [null]. *)
Definition of_column (c : option string) : MaybeStr :=
  match c with
  | Some s => Str s
  | None => Null
  end.

(** A value written into a nullable column by an INSERT: the query
    builder drops [undefined] keys, so the column takes its default,
    NULL. *)
Definition to_column (v : MaybeStr) : option string :=
  match v with
  | Str s => Some s
  | Undefined | Null => None
  end.

(** A key of an UPDATE's [set] object: [undefined] keys are dropped and
    leave the column as it is, [null] writes NULL. *)
Definition assign (v : MaybeStr) (old : option string) : option string :=
  match v with
  | Undefined => old
  | Null => None
  | Str s => Some s
  end.

End Js.
Import Js.

(* ================================================================== *)
(** * Exceptions and the state-and-exception monad *)

Inductive Exception : Type :=
| BadRequestException (message : string)
| NotFoundException (message : string)
| Error (message : string).

Inductive Outcome (A : Type) : Type :=
| Returned (a : A)
| Thrown (e : Exception).
Arguments Thrown {A} e.

(** A computation over a state [S]: it returns or throws, and in both
    cases leaves a state behind. *)
Definition M (S A : Type) : Type := S -> Outcome A * S.

Definition ret {S A} (a : A) : M S A := fun s => (Returned a, s).

Definition throw {S A} (e : Exception) : M S A := fun s => (Thrown e, s).

Definition bind {S A B} (m : M S A) (k : A -> M S B) : M S B :=
  fun s =>
    match m s with
    | (Returned a, s') => k a s'
    | (Thrown e, s') => (Thrown e, s')
    end.

Definition gets {S A} (f : S -> A) : M S A := fun s => (Returned (f s), s).

Definition modify {S} (f : S -> S) : M S unit := fun s => (Returned tt, f s).

(** [try { body } catch (err) { handler err }] *)
Definition try_catch {S A} (body : M S A) (handler : Exception -> M S A)
  : M S A :=
  fun s =>
    match body s with
    | (Returned a, s') => (Returned a, s')
    | (Thrown e, s') => handler e s'
    end.

(** [try { body } catch (err) { handler err } finally { final }] : the
    [finally] block runs on both paths, after the handler. *)
Definition try_catch_finally {S A} (body : M S A)
           (handler : Exception -> M S A) (final : M S unit) : M S A :=
  fun s =>
    match try_catch body handler s with
    | (r, s') =>
        match final s' with
        | (Returned _, s'') => (r, s'')
        | (Thrown e, s'') => (Thrown e, s'')
        end
    end.

Declare Scope monad_scope.
Delimit Scope monad_scope with monad.
Notation "x <- m ;; k" := (bind m (fun x => k))
  (at level 61, m at next level, right associativity) : monad_scope.
Notation "m ;; k" := (bind m (fun _ => k))
  (at level 61, right associativity) : monad_scope.
Open Scope monad_scope.

(* ================================================================== *)
(** * The pages table *)

(** Modelled from the spec: the entity type [Page] of
    [@docmost/db/types/entity.types] is not among the sources.  A row
    has the columns the service reads or writes: [id], [parentPageId]
    ("nullable, null means root") and [position] (a string), and those
    named in [create], [update] and [updateState].  Nullable columns are
    options ([None] is SQL NULL); JSON payloads ([content], [ydoc]) are
    kept as their text. *)
Record Page : Type := mkPage {
  id : string;
  title : option string;
  icon : option string;
  content : option string;
  textContent : option string;
  ydoc : option string;
  position : string;
  parentPageId : option string;
  spaceId : string;
  workspaceId : string;
  creatorId : option string;
  lastUpdatedById : option string
}.

(** Modelled from the spec: the types [InsertablePage] and
    [UpdatablePage] are not among the sources; their keys are read off
    the object literals the service builds.  This is the object given to
    [pageRepo.insertPage]. *)
Record InsertablePage : Type := mkInsertable {
  ins_title : MaybeStr;
  ins_position : string;
  ins_icon : MaybeStr;
  ins_parentPageId : MaybeStr;
  ins_spaceId : string;
  ins_creatorId : string;
  ins_workspaceId : string;
  ins_lastUpdatedById : string
}.

(** The object given to [pageRepo.updatePage]: every key is optional,
    and a key that is absent or [undefined] is not written. *)
Record UpdatablePage : Type := mkUpdatable {
  upd_title : MaybeStr;
  upd_icon : MaybeStr;
  upd_content : MaybeStr;
  upd_textContent : MaybeStr;
  upd_ydoc : MaybeStr;
  upd_position : option string;
  upd_parentPageId : MaybeStr;
  upd_lastUpdatedById : MaybeStr
}.

(** Calls received by the repository and the query builder, oldest
    first. *)
Inductive StoreCall : Type :=
| CallFindById (pageId : string)
| CallInsertPage (row : InsertablePage)
| CallUpdatePage (fields : UpdatablePage) (pageId : string)
| CallSelect (spaceId : string) (parent : option string).

Definition is_write (c : StoreCall) : bool :=
  match c with
  | CallInsertPage _ | CallUpdatePage _ _ => true
  | CallFindById _ | CallSelect _ _ => false
  end.

(* ================================================================== *)
(** * Ordering rows by a string column *)

Inductive Direction : Type := Asc | Desc.

Section OrderBy.
Variable A : Type.
Variable key : A -> string.

(** [a] may stand before [b] in the requested direction. *)
Definition before (dir : Direction) (a b : A) : bool :=
  match dir with
  | Asc => String.leb (key a) (key b)
  | Desc => String.leb (key b) (key a)
  end.

Fixpoint place (dir : Direction) (x : A) (l : list A) : list A :=
  match l with
  | [] => [x]
  | y :: l' => if before dir x y then x :: y :: l' else y :: place dir x l'
  end.

(** [ORDER BY key dir], as a stable insertion sort: rows with equal
    keys keep the order of the table. *)
Fixpoint orderBy (dir : Direction) (l : list A) : list A :=
  match l with
  | [] => []
  | x :: l' => place dir x (orderBy dir l')
  end.
End OrderBy.

(** [LIMIT 1] followed by [executeTakeFirst()]. *)
Definition executeTakeFirst {A} (rows : list A) : option A := hd_error rows.

(* ================================================================== *)
(** * Request objects *)

(** Modelled from the spec: the request classes ([CreatePageDto],
    [UpdatePageDto], [MovePageDto], [SidebarPageDto]) and
    [PaginationOptions] are not among the sources; each has the fields
    the service reads.  A field the service tests for truthiness may be
    [undefined] or [null]. *)
Record CreatePageDto : Type := mkCreatePageDto {
  cr_title : MaybeStr;
  cr_icon : MaybeStr;
  cr_parentPageId : MaybeStr;
  cr_spaceId : string
}.

Record UpdatePageDto : Type := mkUpdatePageDto {
  up_title : MaybeStr;
  up_icon : MaybeStr
}.

Record MovePageDto : Type := mkMovePageDto {
  mv_pageId : string;
  mv_position : string;
  mv_parentPageId : MaybeStr
}.

Record SidebarPageDto : Type := mkSidebarPageDto {
  sb_spaceId : string;
  sb_pageId : MaybeStr
}.

Record PaginationOptions : Type := mkPaginationOptions {
  page : nat;
  limit : nat
}.

(** The options object given to [executeWithPagination]. *)
Record PageWindow : Type := mkPageWindow {
  w_page : nat;
  perPage : nat
}.

(** The columns [lastPageQuery] selects. *)
Record PositionRow : Type := mkPositionRow {
  pr_id : string;
  pr_position : string
}.

(** The columns [getSidebarPages] selects, with the [hasChildren]
    subquery. *)
Record SidebarRow : Type := mkSidebarRow {
  sr_id : string;
  sr_title : option string;
  sr_icon : option string;
  sr_position : string;
  sr_parentPageId : option string;
  sr_spaceId : string;
  sr_creatorId : option string;
  sr_hasChildren : bool
}.

Definition option_eqb (a b : option string) : bool :=
  match a, b with
  | Some x, Some y => x =? y
  | None, None => true
  | _, _ => false
  end.

(** Membership of a row in a sibling group: the [WHERE] clauses
    [spaceId = space] and either [parentPageId = parent] or
    [parentPageId IS NULL]. *)
Definition in_group (space : string) (parent : option string) (p : Page)
  : bool :=
  (spaceId p =? space) && option_eqb (parentPageId p) parent.

(** [withHasChildren]: whether some row has this one as its parent. *)
Definition withHasChildren (table : list Page) (p : Page) : bool :=
  Nat.ltb 0 (List.length
               (filter (fun child => option_eqb (parentPageId child)
                                                (Some (id p))) table)).

Definition sidebar_row (table : list Page) (p : Page) : SidebarRow :=
  mkSidebarRow (id p) (title p) (icon p) (position p) (parentPageId p)
               (spaceId p) (creatorId p) (withHasChildren table p).

(** Modelled from the spec: [PageRepo.updatePage] is not among the
    sources; it is the single-row update of the store the specification
    relies on.  [SET fields] applied to one row: a key left [undefined]
    is not written, which is what [movePage] relies on when it sets
    [parentPageId = undefined] for a move within the same parent. *)
Definition apply_update (f : UpdatablePage) (p : Page) : Page :=
  mkPage (id p)
         (assign (upd_title f) (title p))
         (assign (upd_icon f) (icon p))
         (assign (upd_content f) (content p))
         (assign (upd_textContent f) (textContent p))
         (assign (upd_ydoc f) (ydoc p))
         (match upd_position f with Some s => s | None => position p end)
         (assign (upd_parentPageId f) (parentPageId p))
         (spaceId p)
         (workspaceId p)
         (creatorId p)
         (assign (upd_lastUpdatedById f) (lastUpdatedById p)).

(** [UPDATE pages SET fields WHERE id = pageId] over the whole table. *)
Definition update_rows (f : UpdatablePage) (pageId : string)
           (table : list Page) : list Page :=
  map (fun p => if id p =? pageId then apply_update f p else p) table.

(** Modelled from the spec: [PageRepo.findById] is not among the
    sources; it is the lookup of a row by its id, [null] ([None]) when
    no row has it. *)
Definition find_row (pageId : string) (table : list Page) : option Page :=
  find (fun p => id p =? pageId) table.

(* ================================================================== *)
(** * The service *)

Section PageService.

(** The source of randomness of the process: the jitter of the key
    generator and the primary keys the database generates. *)
Variable Entropy : Type.

(** [generateJitteredKeyBetween(a, b)] of the package
    [fractional-indexing-jittered]: [None] is [null]; it returns a key
    or throws, and consumes randomness. *)
Variable generateJitteredKeyBetween :
  option string -> option string -> M Entropy string.

(** The default of the [id] column. *)
Variable gen_uuid : Entropy -> string * Entropy.

(** [executeWithPagination(query, opts)], given the rows the query
    selects, in order. *)
Variable Paginated : Type.
Variable executeWithPagination : list SidebarRow -> PageWindow -> Paginated.

(** What the service runs against: the table, the calls the store has
    received, and the randomness left. *)
Record World : Type := mkWorld {
  pages : list Page;
  calls : list StoreCall;
  entropy : Entropy
}.

Definition record_call (c : StoreCall) : M World unit :=
  modify (fun w => mkWorld (pages w) (calls w ++ [c])%list (entropy w)).

Definition set_pages (f : list Page -> list Page) : M World unit :=
  modify (fun w => mkWorld (f (pages w)) (calls w) (entropy w)).

(** Running a computation that only uses the randomness. *)
Definition with_entropy {A} (m : M Entropy A) : M World A :=
  fun w =>
    match m (entropy w) with
    | (r, e') => (r, mkWorld (pages w) (calls w) e')
    end.

(** ** [PageRepo] *)

Definition findById (pageId : string) : M World (option Page) :=
  record_call (CallFindById pageId);;
  gets (fun w => find_row pageId (pages w)).

(** Modelled from the spec: [PageRepo.insertPage] is not among the
    sources; it adds one row with the given columns, the others at their
    defaults, and returns it. *)
Definition new_row (newId : string) (r : InsertablePage) : Page :=
  mkPage newId
         (to_column (ins_title r))
         (to_column (ins_icon r))
         None None None
         (ins_position r)
         (to_column (ins_parentPageId r))
         (ins_spaceId r)
         (ins_workspaceId r)
         (Some (ins_creatorId r))
         (Some (ins_lastUpdatedById r)).

Definition insertPage (r : InsertablePage) : M World Page :=
  record_call (CallInsertPage r);;
  newId <- with_entropy (fun e => let (i, e') := gen_uuid e in
                                  (Returned i, e'));;
  set_pages (fun table => (table ++ [new_row newId r])%list);;
  ret (new_row newId r).

Definition updatePage (fields : UpdatablePage) (pageId : string)
  : M World unit :=
  record_call (CallUpdatePage fields pageId);;
  set_pages (update_rows fields pageId).

(** ** Queries built on [this.db] *)

(** [lastPageQuery] with its last [where] clause, executed: the rows of
    the sibling group, [id] and [position] only, by descending
    position. *)
Definition lastPageQuery (space : string) (parent : option string)
  : M World (list PositionRow) :=
  record_call (CallSelect space parent);;
  gets (fun w =>
          orderBy pr_position Desc
                  (map (fun p => mkPositionRow (id p) (position p))
                       (filter (in_group space parent) (pages w)))).

(** The query of [getSidebarPages], executed without a window. *)
Definition sidebarQuery (space : string) (parent : option string)
           (table : list Page) : list SidebarRow :=
  orderBy sr_position Asc
          (map (sidebar_row table) (filter (in_group space parent) table)).

(** ** [create] *)

Definition create (userId workspaceId : string) (dto : CreatePageDto)
  : M World Page :=
  (* check if parent page exists *)
  (if truthy (cr_parentPageId dto) then
     parentPage <- findById (str_of (cr_parentPageId dto));;
     match parentPage with
     | None => throw (NotFoundException "Parent page not found")
     | Some _ => ret tt
     end
   else ret tt);;
  rows <- (if truthy (cr_parentPageId dto) then
             (* check for children of this page *)
             lastPageQuery (cr_spaceId dto)
                           (Some (str_of (cr_parentPageId dto)))
           else
             (* for root page *)
             lastPageQuery (cr_spaceId dto) None);;
  pagePosition <- match executeTakeFirst rows with
                  | None =>
                      with_entropy (generateJitteredKeyBetween None None)
                  | Some lastPage =>
                      with_entropy (generateJitteredKeyBetween
                                      (Some (pr_position lastPage)) None)
                  end;;
  insertPage (mkInsertable (cr_title dto) pagePosition (cr_icon dto)
                           (cr_parentPageId dto) (cr_spaceId dto)
                           userId workspaceId userId).

(** ** [update] and [updateState] *)

Definition update (pageId : string) (dto : UpdatePageDto) (userId : string)
  : M World (option Page) :=
  updatePage (mkUpdatable (up_title dto) (up_icon dto) Undefined Undefined
                          Undefined None Undefined (Str userId))
             pageId;;
  findById pageId.

Definition updateState (pageId : string) (content' : MaybeStr)
           (textContent' : string) (ydoc' : MaybeStr) (userId : MaybeStr)
  : M World unit :=
  updatePage (mkUpdatable Undefined Undefined content' (Str textContent')
                          ydoc' None Undefined
                          (if truthy userId then userId else Undefined))
             pageId.

(** ** [getSidebarPages] *)

(** The last [where] clause of the query: [parentPageId = dto.pageId]
    when [dto.pageId] is truthy, [parentPageId IS NULL] otherwise. *)
Definition sidebar_parent (dto : SidebarPageDto) : option string :=
  if truthy (sb_pageId dto) then Some (str_of (sb_pageId dto)) else None.

Definition getSidebarPages (dto : SidebarPageDto)
           (pagination : PaginationOptions) : M World Paginated :=
  record_call (CallSelect (sb_spaceId dto) (sidebar_parent dto));;
  rows <- gets (fun w => sidebarQuery (sb_spaceId dto) (sidebar_parent dto)
                                      (pages w));;
  ret (executeWithPagination rows (mkPageWindow (page pagination) 250)).

(** ** [movePage] *)

Definition movePage (dto : MovePageDto) : M World unit :=
  (* validate position value by attempting to generate a key *)
  try_catch
    (with_entropy (generateJitteredKeyBetween (Some (mv_position dto)) None);;
     ret tt)
    (fun _ => throw (BadRequestException "Invalid move position"));;
  movedPage <- findById (mv_pageId dto);;
  match movedPage with
  | None => throw (NotFoundException "Moved page not found")
  | Some movedPage =>
      parentPageId' <-
        (if strict_eq (of_column (parentPageId movedPage))
                      (mv_parentPageId dto)
         then ret Undefined
         else
           (* changing the page's parent *)
           (if truthy (mv_parentPageId dto) then
              parentPage <- findById (str_of (mv_parentPageId dto));;
              match parentPage with
              | None => throw (NotFoundException "Parent page not found")
              | Some _ => ret tt
              end
            else ret tt);;
           ret (mv_parentPageId dto));;
      updatePage (mkUpdatable Undefined Undefined Undefined Undefined
                              Undefined (Some (mv_position dto))
                              parentPageId' Undefined)
                 (mv_pageId dto)
  end.

End PageService.

Arguments pages {Entropy} w.
Arguments calls {Entropy} w.
Arguments entropy {Entropy} w.

(* ================================================================== *)
(** * Pagination *)

Record PaginationMeta : Type := mkPaginationMeta {
  meta_limit : nat;
  meta_page : nat;
  hasNextPage : bool;
  hasPrevPage : bool
}.

Record PaginationResult (A : Type) : Type := mkPaginationResult {
  items : list A;
  meta : PaginationMeta
}.

(** Modelled from the spec: [executeWithPagination] belongs to
    [@docmost/db/pagination/pagination], which is not among the sources,
    and the specification does not describe it.  It is taken as the
    usual window over the ordered rows: page [n] (counted from 1) of size
    [perPage] holds the rows from offset [(n - 1) * perPage], at most
    [perPage] of them, and the meta data say whether rows exist before
    and after the window. *)
Definition paginate {A} (rows : list A) (opts : PageWindow)
  : PaginationResult A :=
  let rest := skipn ((w_page opts - 1) * perPage opts) rows in
  mkPaginationResult
    (firstn (perPage opts) rest)
    (mkPaginationMeta (perPage opts) (w_page opts)
                      (Nat.ltb (perPage opts) (List.length rest))
                      (Nat.ltb 0 (List.length rest)
                       && Nat.ltb 1 (w_page opts))).

(* ================================================================== *)
(** * The comment list item *)

Module CommentListItem.

(** The [IComment] fields the handler reads. *)
Record IComment : Type := mkIComment {
  comment_id : string;
  comment_pageId : string
}.

(** The argument of the update mutation. *)
Record CommentUpdate : Type := mkCommentUpdate {
  cu_id : string;
  cu_content : string
}.

Section Component.

(** The editor document held in the [content] state. *)
Variable Content : Type.
Variable JSON_stringify : Content -> string.

(** [updateCommentMutation.mutateAsync]: the promise resolves or
    rejects. *)
Variable mutateAsync : CommentUpdate -> Outcome IComment.

(** How [console.error] renders its arguments. *)
Variable render_error : Exception -> string.

(** The [useState] cells of the component and the console. *)
Record State : Type := mkState {
  isEditing : bool;
  isLoading : bool;
  content : Content;
  console : list string
}.

Definition setIsEditing (b : bool) : M State unit :=
  modify (fun s => mkState b (isLoading s) (content s) (console s)).

Definition setIsLoading (b : bool) : M State unit :=
  modify (fun s => mkState (isEditing s) b (content s) (console s)).

Definition console_error (label : string) (e : Exception) : M State unit :=
  modify (fun s => mkState (isEditing s) (isLoading s) (content s)
                           (console s ++ [(label ++ " " ++ render_error e)%string])%list).

(** Awaiting a promise: a rejection is thrown at the [await]. *)
Definition await {A} (p : Outcome A) : M State A := fun s => (p, s).

Definition handleUpdateComment (comment : IComment) : M State unit :=
  try_catch_finally
    (setIsLoading true;;
     content' <- gets content;;
     let commentToUpdate :=
       mkCommentUpdate (comment_id comment) (JSON_stringify content') in
     await (mutateAsync commentToUpdate);;
     setIsEditing false)
    (fun error => console_error "Failed to update comment:" error)
    (setIsLoading false).

Definition handleEditToggle : M State unit := setIsEditing true.

(** The editor held in [editorAtom], and its command
    [commands.unsetComment(id)]: the editor afterwards, or a throw. *)
Variable Editor : Type.
Variable unsetComment : string -> Editor -> Outcome Editor.

(** [deleteCommentMutation.mutateAsync]. *)
Variable deleteMutateAsync : string -> Outcome unit.

(** The component's cells together with the editor of the page, which
    is [null] ([None]) while no editor is mounted. *)
Record Scene : Type := mkScene {
  item : State;
  editor : option Editor
}.

(** A computation on the cells of the component, run in the scene. *)
Definition in_item {A} (m : M State A) : M Scene A :=
  fun sc =>
    match m (item sc) with
    | (r, s') => (r, mkScene s' (editor sc))
    end.

(** [editor?.commands.unsetComment(id)] *)
Definition editor_unsetComment (commentId : string) : M Scene unit :=
  fun sc =>
    match editor sc with
    | None => (Returned tt, sc)
    | Some ed =>
        match unsetComment commentId ed with
        | Returned ed' => (Returned tt, mkScene (item sc) (Some ed'))
        | Thrown e => (Thrown e, sc)
        end
    end.

Definition handleDeleteComment (comment : IComment) : M Scene unit :=
  try_catch
    (in_item (await (deleteMutateAsync (comment_id comment)));;
     editor_unsetComment (comment_id comment))
    (fun error => in_item (console_error "Failed to delete comment:" error)).

End Component.

Arguments isEditing {Content} s.
Arguments isLoading {Content} s.
Arguments content {Content} s.
Arguments console {Content} s.
Arguments item {Content Editor} s.
Arguments editor {Content Editor} s.

Section Interaction.

Variable Content : Type.
Variable JSON_stringify : Content -> string.
Variable render_error : Exception -> string.
Variable Editor : Type.
Variable unsetComment : string -> Editor -> Outcome Editor.

(** [onUpdate={(newContent) => setContent(newContent)}] *)
Definition setContent (c : Content) : M (State Content) unit :=
  modify (fun s => mkState (isEditing s) (isLoading s) c (console s)).

(** What the user can trigger on the item, with the way the mutation
    then ends: the menu's edit entry, a change in the editable editor,
    the save button and the menu's delete entry. *)
Inductive Event : Type :=
| EditToggle
| EditorUpdate (newContent : Content)
| Save (result : Outcome IComment)
| Delete (result : Outcome unit).

(** The handler an event runs. *)
Definition on_event (comment : IComment) (ev : Event)
  : M (Scene Content Editor) unit :=
  match ev with
  | EditToggle => in_item (handleEditToggle (Content := Content))
  | EditorUpdate newContent => in_item (setContent newContent)
  | Save result =>
      in_item (handleUpdateComment JSON_stringify (fun _ => result)
                                   render_error comment)
  | Delete result =>
      handleDeleteComment render_error unsetComment (fun _ => result) comment
  end.

(** Handlers run one after the other. *)
Fixpoint on_events (comment : IComment) (evs : list Event)
  : M (Scene Content Editor) unit :=
  match evs with
  | [] => ret tt
  | ev :: evs' => on_event comment ev;; on_events comment evs'
  end.

End Interaction.

End CommentListItem.

(* ================================================================== *)
(** * A concrete instance to run the service on *)

Module Demo.

(** Randomness as a counter. *)
Definition Entropy : Type := nat.

Definition alphanumeric (c : ascii) : bool :=
  let n := nat_of_ascii c in
  (Nat.leb 48 n && Nat.leb n 57) || (Nat.leb 65 n && Nat.leb n 90)
  || (Nat.leb 97 n && Nat.leb n 122).

Definition plausible_key (k : option string) : bool :=
  match k with
  | None => true
  | Some s => negb (s =? "") && forallb alphanumeric (list_ascii_of_string s)
  end.

(** A sample key generator, for running the service on concrete
    requests only: it throws on a bound that is empty or holds a
    character outside [0-9A-Za-z], and otherwise extends the lower
    bound.  It is not the algorithm of the package. *)
Definition sampleKeyBetween (a b : option string) : M Entropy string :=
  fun e =>
    if plausible_key a && plausible_key b then
      (Returned (match a with
                 | None => "a0"
                 | Some s => s ++ "V"
                 end), S e)
    else (Thrown (Error "invalid order key"), e).

(** Primary keys: ["new-"] followed by as many zeros as the counter
    says. *)
Definition sample_uuid (e : Entropy) : string * Entropy :=
  ("new-" ++ string_of_list_ascii (repeat "0"%char e), S e).

Definition samplePage (i pos : string) (parent : option string) : Page :=
  mkPage i None None None None None pos parent "space-1" "workspace-1"
         (Some "user-1") (Some "user-1").

Definition world (table : list Page) : World Entropy :=
  mkWorld table [] 0.

(** Two root pages, the first with two children. *)
Definition family : list Page :=
  [ samplePage "id-0" "a0" None;
    samplePage "id-1" "a0" (Some "id-0");
    samplePage "id-2" "a1" None;
    samplePage "id-3" "a1" (Some "id-0") ].

(** [n] root pages of one space, with the ids ["p"], ["p0"], ["p00"],
    ... and the positions ["a"], ["a0"], ["a00"], ... *)
Definition crowd (n : nat) : list Page :=
  map (fun i =>
         samplePage ("p" ++ string_of_list_ascii (repeat "0"%char i))
                    ("a" ++ string_of_list_ascii (repeat "0"%char i))
                    None)
      (seq 0 n).

End Demo.

(* ================================================================== *)
(** * Properties stated about the service *)

Section Properties.
Variable Entropy : Type.

(** A computation fails with a not-found error and writes nothing: the
    table is as before and the store received no insert or update. *)
Definition fails_not_found {A} (m : M (World Entropy) A) (w : World Entropy)
  : Prop :=
  exists msg w',
    m w = (Thrown (NotFoundException msg), w')
    /\ pages w' = pages w
    /\ filter is_write (calls w') = filter is_write (calls w).

(** A create request names a parent, and no row has that id. *)
Definition create_parent_missing (dto : CreatePageDto) (w : World Entropy)
  : Prop :=
  exists parent,
    cr_parentPageId dto = Str parent /\ parent <> ""
    /\ find_row parent (pages w) = None.

(** A move request names a page that is not stored, or a new parent,
    different from the current one, that is not stored. *)
Definition move_target_missing (dto : MovePageDto) (w : World Entropy)
  : Prop :=
  find_row (mv_pageId dto) (pages w) = None
  \/ exists moved parent,
      find_row (mv_pageId dto) (pages w) = Some moved
      /\ mv_parentPageId dto = Str parent /\ parent <> ""
      /\ parentPageId moved <> Some parent
      /\ find_row parent (pages w) = None.

End Properties.

(** A row with another position, or another parent, and every other
    column as it was. *)
Definition with_position (s : string) (p : Page) : Page :=
  mkPage (id p) (title p) (icon p) (content p) (textContent p) (ydoc p)
         s (parentPageId p) (spaceId p) (workspaceId p) (creatorId p)
         (lastUpdatedById p).

Definition with_parent (parent : option string) (p : Page) : Page :=
  mkPage (id p) (title p) (icon p) (content p) (textContent p) (ydoc p)
         (position p) parent (spaceId p) (workspaceId p) (creatorId p)
         (lastUpdatedById p).

(** Rewriting the rows of one id, the others kept. *)
Definition rewrite_rows (pageId : string) (f : Page -> Page)
           (table : list Page) : list Page :=
  map (fun p => if id p =? pageId then f p else p) table.

(** Two rows that agree on every column except the content and metadata
    columns [title], [icon], [content], [textContent], [ydoc] and
    [lastUpdatedById]. *)
Definition same_placement (p p' : Page) : Prop :=
  id p' = id p
  /\ position p' = position p
  /\ parentPageId p' = parentPageId p
  /\ spaceId p' = spaceId p
  /\ workspaceId p' = workspaceId p
  /\ creatorId p' = creatorId p.

(** The statement "a move to another parent updates the parent and the
    position", read on the tables before and after a move: when the
    parent the request names (none, if it is null or left out) is not
    the current parent of the page, the page afterwards has the parent
    and the position of the request. *)
Definition move_updates_parent (dto : MovePageDto)
           (table table' : list Page) : Prop :=
  forall moved,
    find_row (mv_pageId dto) table = Some moved ->
    to_column (mv_parentPageId dto) <> parentPageId moved ->
    exists moved',
      find_row (mv_pageId dto) table' = Some moved'
      /\ parentPageId moved' = to_column (mv_parentPageId dto)
      /\ position moved' = mv_position dto.

(** The statement "the sidebar request returns exactly the members of
    the group", in the direction that can fail: every row of the group
    is among the items returned. *)
Definition returns_whole_group (dto : SidebarPageDto) (table : list Page)
           (result : PaginationResult SidebarRow) : Prop :=
  forall p,
    In p table ->
    in_group (sb_spaceId dto) (to_column (sb_pageId dto)) p = true ->
    In (id p) (map sr_id (items result)).

(** The parent [create] looks for siblings under: the id of the request
    when it is truthy, none otherwise. *)
Definition create_parent (dto : CreatePageDto) : option string :=
  if truthy (cr_parentPageId dto)
  then Some (str_of (cr_parentPageId dto))
  else None.

(** The position [lastPageQuery] yields for a group, if it has a
    member. *)
Definition last_position (space : string) (parent : option string)
           (table : list Page) : option string :=
  option_map pr_position
             (executeTakeFirst
                (orderBy pr_position Desc
                         (map (fun p => mkPositionRow (id p) (position p))
                              (filter (in_group space parent) table)))).

(** The object [create] gives to [insertPage] for a generated position. *)
Definition create_row (userId workspaceId : string) (dto : CreatePageDto)
           (pagePosition : string) : InsertablePage :=
  mkInsertable (cr_title dto) pagePosition (cr_icon dto)
               (cr_parentPageId dto) (cr_spaceId dto) userId workspaceId
               userId.

(** The object [movePage] gives to [updatePage] for a page found with
    the given parent. *)
Definition move_fields (dto : MovePageDto) (current : option string)
  : UpdatablePage :=
  mkUpdatable Undefined Undefined Undefined Undefined Undefined
              (Some (mv_position dto))
              (if strict_eq (of_column current) (mv_parentPageId dto)
               then Undefined else mv_parentPageId dto)
              Undefined.

(** The lookups of [movePage] find what they need: the page, and the
    new parent when one is named that is not the current one. *)
Definition move_targets_stored (dto : MovePageDto) (table : list Page)
  : Prop :=
  exists moved,
    find_row (mv_pageId dto) table = Some moved
    /\ (mv_parentPageId dto = of_column (parentPageId moved)
        \/ truthy (mv_parentPageId dto) = false
        \/ find_row (str_of (mv_parentPageId dto)) table <> None).

(** The row a successful move leaves in place of the one it found: the
    position is the one of the request; the parent is the one of the
    request when that is null or a string and not strictly equal to the
    current parent, and the current parent otherwise. *)
Definition moved_row (dto : MovePageDto) (moved : Page) : Page :=
  if strict_eq (of_column (parentPageId moved)) (mv_parentPageId dto)
  then with_position (mv_position dto) moved
  else match mv_parentPageId dto with
       | Undefined => with_position (mv_position dto) moved
       | v => with_parent (to_column v) (with_position (mv_position dto) moved)
       end.

(** Every parent a row names is the id of a row. *)
Definition parents_stored (table : list Page) : Prop :=
  forall p parent,
    In p table -> parentPageId p = Some parent -> In parent (map id table).

(** Whether the comment item is in editing mode after a list of events:
    the edit entry opens the editor, a save that resolves closes it, and
    nothing else changes it. *)
Definition editing_after {Content : Type} (editing : bool)
           (evs : list (CommentListItem.Event Content)) : bool :=
  fold_left (fun b ev =>
               match ev with
               | CommentListItem.EditToggle _ => true
               | CommentListItem.Save _ (Returned _) => false
               | _ => b
               end)
            evs editing.

(** The content the comment item holds after a list of events: the last
    one the editor reported. *)
Definition content_after {Content : Type} (c : Content)
           (evs : list (CommentListItem.Event Content)) : Content :=
  fold_left (fun c ev =>
               match ev with
               | CommentListItem.EditorUpdate c' => c'
               | _ => c
               end)
            evs c.

(* ================================================================== *)
(** * Facts about the values and the order of positions *)

Lemma Returned_inj (A : Type) (a b : A) : Returned a = Returned b -> a = b.
Proof. intro H. now injection H. Qed.

Lemma strict_eq_true_iff (a b : MaybeStr) : strict_eq a b = true <-> a = b.
Proof.
  destruct a, b; simpl; split; intro H;
    try discriminate; try reflexivity.
  - apply String.eqb_eq in H. now subst.
  - injection H as ->. apply String.eqb_refl.
Qed.

Lemma truthy_is_str (v : MaybeStr) :
  truthy v = true -> exists s, v = Str s /\ s <> "".
Proof.
  destruct v as [| |s]; simpl; try discriminate.
  intro H. exists s. split; [reflexivity|].
  apply negb_true_iff in H. now apply String.eqb_neq.
Qed.

Lemma falsy_is_absent (v : MaybeStr) :
  truthy v = false -> v <> Str "" -> v = Undefined \/ v = Null.
Proof.
  destruct v as [| |s]; simpl; auto.
  intros H Hne. apply negb_false_iff in H. apply String.eqb_eq in H.
  now subst.
Qed.

Lemma option_eqb_eq (a b : option string) : option_eqb a b = true <-> a = b.
Proof.
  destruct a, b; simpl; split; intro H; try discriminate; try reflexivity.
  - apply String.eqb_eq in H. now subst.
  - injection H as ->. apply String.eqb_refl.
Qed.

Lemma ascii_compare_trans (a b c : ascii) (r : comparison) :
  Ascii.compare a b = r -> Ascii.compare b c = r -> Ascii.compare a c = r.
Proof.
  unfold Ascii.compare. intros H1 H2. destruct r.
  - apply N.compare_eq_iff in H1, H2. apply N.compare_eq_iff. congruence.
  - rewrite N.compare_lt_iff in *. eapply N.lt_trans; eassumption.
  - rewrite N.compare_gt_iff in *. eapply N.lt_trans; eassumption.
Qed.

Lemma string_compare_refl (s : string) : String.compare s s = Eq.
Proof.
  induction s as [|c s IH]; simpl; [reflexivity|].
  assert (Hc : Ascii.compare c c = Eq)
    by (unfold Ascii.compare; apply N.compare_refl).
  now rewrite Hc.
Qed.

Lemma string_compare_trans (r : comparison) :
  forall a b c : string,
    String.compare a b = r -> String.compare b c = r ->
    String.compare a c = r.
Proof.
  induction a as [|x a IH]; intros [|y b] [|z c]; simpl;
    try congruence.
  destruct (Ascii.compare x y) eqn:Hxy, (Ascii.compare y z) eqn:Hyz;
    intros H1 H2; try congruence.
  - rewrite (ascii_compare_trans _ _ _ Hxy Hyz). eauto.
  - apply Ascii.compare_eq_iff in Hxy. subst y. now rewrite Hyz.
  - apply Ascii.compare_eq_iff in Hxy. subst y. now rewrite Hyz.
  - apply Ascii.compare_eq_iff in Hyz. subst z. now rewrite Hxy.
  - now rewrite (ascii_compare_trans _ _ _ Hxy Hyz).
  - apply Ascii.compare_eq_iff in Hyz. subst z. now rewrite Hxy.
  - now rewrite (ascii_compare_trans _ _ _ Hxy Hyz).
Qed.

Lemma string_leb_trans (a b c : string) :
  String.leb a b = true -> String.leb b c = true -> String.leb a c = true.
Proof.
  unfold String.leb.
  destruct (String.compare a b) eqn:Hab; try discriminate;
    destruct (String.compare b c) eqn:Hbc; try discriminate; intros _ _.
  - apply String.compare_eq_iff in Hab. subst b. now rewrite Hbc.
  - apply String.compare_eq_iff in Hab. subst b. now rewrite Hbc.
  - apply String.compare_eq_iff in Hbc. subst c. now rewrite Hab.
  - now rewrite (string_compare_trans _ _ _ Hab Hbc).
Qed.

(* ================================================================== *)
(** * Facts about [orderBy] *)

Section OrderByFacts.
Variable A : Type.
Variable key : A -> string.
Variable dir : Direction.

Lemma before_total (a b : A) :
  before key dir a b = true \/ before key dir b a = true.
Proof. destruct dir; simpl; apply String.leb_total. Qed.

Lemma before_trans (a b c : A) :
  before key dir a b = true -> before key dir b c = true ->
  before key dir a c = true.
Proof.
  destruct dir; simpl; intros H1 H2;
    eauto using string_leb_trans.
Qed.

Lemma place_perm (x : A) (l : list A) :
  Permutation (x :: l) (place key dir x l).
Proof.
  induction l as [|y l IH]; simpl; [apply Permutation_refl|].
  destruct (before key dir x y); [apply Permutation_refl|].
  eapply perm_trans; [apply perm_swap|]. now apply perm_skip.
Qed.

Lemma orderBy_perm (l : list A) : Permutation l (orderBy key dir l).
Proof.
  induction l as [|x l IH]; simpl; [constructor|].
  eapply perm_trans; [apply perm_skip, IH|apply place_perm].
Qed.

Lemma place_sorted (x : A) (l : list A) :
  StronglySorted (fun a b => before key dir a b = true) l ->
  StronglySorted (fun a b => before key dir a b = true) (place key dir x l).
Proof.
  induction l as [|y l IH]; simpl; intro Hs.
  - constructor; constructor.
  - inversion Hs as [|? ? Hl Hy]; subst.
    destruct (before key dir x y) eqn:Hxy.
    + constructor; [assumption|]. constructor; [assumption|].
      eapply Forall_impl; [|exact Hy].
      intros a Ha. eapply before_trans; eassumption.
    + constructor; [now apply IH|].
      assert (Hyx : before key dir y x = true).
      { destruct (before_total x y) as [H|H]; [congruence|assumption]. }
      eapply Permutation_Forall; [apply place_perm|].
      constructor; assumption.
Qed.

Lemma orderBy_sorted (l : list A) :
  StronglySorted (fun a b => before key dir a b = true) (orderBy key dir l).
Proof.
  induction l as [|x l IH]; simpl; [constructor|now apply place_sorted].
Qed.

Lemma orderBy_In (a : A) (l : list A) : In a (orderBy key dir l) <-> In a l.
Proof.
  split; apply Permutation_in;
    [apply Permutation_sym|]; apply orderBy_perm.
Qed.

Lemma orderBy_nil_iff (l : list A) : orderBy key dir l = [] <-> l = [].
Proof.
  split; intro H.
  - apply Permutation_nil. rewrite <- H. apply Permutation_sym, orderBy_perm.
  - now subst.
Qed.

(** The first row of the ordered list stands before every row. *)
Lemma orderBy_first (l : list A) (first : A) :
  executeTakeFirst (orderBy key dir l) = Some first ->
  In first l /\ forall a, In a l -> before key dir first a = true.
Proof.
  unfold executeTakeFirst. intro H.
  pose proof (orderBy_sorted l) as Hs.
  destruct (orderBy key dir l) as [|y rest] eqn:Ho; [discriminate|].
  simpl in H. injection H as ->.
  split.
  - apply orderBy_In. rewrite Ho. now left.
  - intros a Ha. apply orderBy_In in Ha. rewrite Ho in Ha.
    inversion Hs as [|? ? _ Hall]; subst.
    destruct Ha as [<-|Ha].
    + destruct (before_total first first); assumption.
    + rewrite Forall_forall in Hall. now apply Hall.
Qed.

End OrderByFacts.

(* ================================================================== *)
(** * The service: errors and what they leave behind *)

Section PageServiceFacts.
Variable Entropy : Type.
Variable generateJitteredKeyBetween :
  option string -> option string -> M Entropy string.
Variable gen_uuid : Entropy -> string * Entropy.

Implicit Type w : World Entropy.

Ltac run :=
  unfold findById, updatePage, insertPage, lastPageQuery, record_call,
    set_pages, with_entropy, try_catch, bind, gets, modify, ret, throw;
  simpl.

(** C1. A move whose position the key generator rejects fails with the
    bad-request error "Invalid move position"; the table is unchanged
    and the store has received no call at all, neither a lookup nor a
    write. *)
Theorem movePage_invalid_position_rejected
        (dto : MovePageDto) (w : World Entropy) (err : Exception) (e' : Entropy) :
  generateJitteredKeyBetween (Some (mv_position dto)) None (entropy w)
  = (Thrown err, e') ->
  exists w',
    movePage generateJitteredKeyBetween dto w
    = (Thrown (BadRequestException "Invalid move position"), w')
    /\ pages w' = pages w
    /\ calls w' = calls w.
Proof.
  intro Hgen. unfold movePage. run. rewrite Hgen.
  eexists. split; [reflexivity|]. split; reflexivity.
Qed.

(** The validation step of [movePage] when the generator accepts the
    position: nothing but randomness is consumed. *)
Lemma movePage_valid_position
      (dto : MovePageDto) (w : World Entropy) (k : string) (e' : Entropy) :
  generateJitteredKeyBetween (Some (mv_position dto)) None (entropy w)
  = (Returned k, e') ->
  movePage generateJitteredKeyBetween dto w
  = (movedPage <- findById (mv_pageId dto);;
     match movedPage with
     | None => throw (NotFoundException "Moved page not found")
     | Some movedPage =>
         parentPageId' <-
           (if strict_eq (of_column (parentPageId movedPage))
                         (mv_parentPageId dto)
            then ret Undefined
            else
              (if truthy (mv_parentPageId dto) then
                 parentPage <- findById (str_of (mv_parentPageId dto));;
                 match parentPage with
                 | None => throw (NotFoundException "Parent page not found")
                 | Some _ => ret tt
                 end
               else ret tt);;
              ret (mv_parentPageId dto));;
         updatePage (mkUpdatable Undefined Undefined Undefined Undefined
                                 Undefined (Some (mv_position dto))
                                 parentPageId' Undefined)
                    (mv_pageId dto)
     end) (mkWorld (pages w) (calls w) e').
Proof.
  intro Hgen. unfold movePage.
  unfold try_catch, with_entropy, bind at 1 2 3. rewrite Hgen. reflexivity.
Qed.

Lemma filter_is_write_lookup (cs : list StoreCall) (i : string) :
  filter is_write (cs ++ [CallFindById i]) = filter is_write cs.
Proof. rewrite filter_app. simpl. apply app_nil_r. Qed.

(** C2 (amended). A create request that names a parent no row has fails
    with a not-found error.  A move request with a position the
    generator accepts fails with a not-found error when the moved page
    is not stored, or when it names a new parent, different from the
    page's current one, that is not stored.  In each case the table is
    unchanged and the store receives no insert or update. *)
Theorem missing_page_not_found (w : World Entropy) :
  (forall userId workspaceId dto,
      create_parent_missing dto w ->
      fails_not_found
        (create generateJitteredKeyBetween gen_uuid userId workspaceId dto) w)
  /\ (forall dto k e',
         generateJitteredKeyBetween (Some (mv_position dto)) None (entropy w)
         = (Returned k, e') ->
         move_target_missing dto w ->
         fails_not_found (movePage generateJitteredKeyBetween dto) w).
Proof.
  split.
  - intros userId workspaceId dto (parent & Hp & Hne & Hfind).
    unfold fails_not_found, create. rewrite Hp. simpl.
    apply String.eqb_neq in Hne. rewrite Hne. simpl.
    run. rewrite Hfind.
    do 2 eexists. split; [reflexivity|]. simpl.
    split; [reflexivity|apply filter_is_write_lookup].
  - intros dto k e' Hgen Hmiss.
    unfold fails_not_found. rewrite (movePage_valid_position _ _ Hgen).
    destruct Hmiss as [Hfind|(moved & parent & Hfind & Hp & Hne & Hdiff & Hpar)].
    + run. rewrite Hfind.
      do 2 eexists. split; [reflexivity|]. simpl.
      split; [reflexivity|apply filter_is_write_lookup].
    + run. rewrite Hfind, Hp. simpl.
      assert (Heq : strict_eq (of_column (parentPageId moved)) (Str parent)
                    = false).
      { destruct (strict_eq _ _) eqn:E; [|reflexivity].
        apply strict_eq_true_iff in E.
        destruct (parentPageId moved); simpl in E; congruence. }
      rewrite Heq. apply String.eqb_neq in Hne. rewrite Hne. simpl.
      rewrite Hpar.
      do 2 eexists. split; [reflexivity|]. simpl.
      split; [reflexivity|].
      now rewrite !filter_is_write_lookup.
Qed.

(* ------------------------------------------------------------------ *)
(** ** [create]: the position of the new page *)

(** What [lastPageQuery] finds: nothing when the group is empty,
    otherwise the position of a member that no member exceeds. *)
Lemma lastPage_spec (space : string) (parent : option string)
      (table : list Page) :
  let group := filter (in_group space parent) table in
  match executeTakeFirst
          (orderBy pr_position Desc
                   (map (fun p => mkPositionRow (id p) (position p)) group))
  with
  | None => group = []
  | Some lastPage =>
      exists last,
        In last group
        /\ position last = pr_position lastPage
        /\ forall q, In q group ->
                     String.leb (position q) (position last) = true
  end.
Proof.
  intro group.
  destruct (executeTakeFirst _) as [lastPage|] eqn:Hfirst.
  - apply orderBy_first in Hfirst. destruct Hfirst as [Hin Hmax].
    apply in_map_iff in Hin. destruct Hin as (last & Hlast & Hin).
    exists last. subst lastPage. repeat split; auto.
    intros q Hq.
    apply (Hmax (mkPositionRow (id q) (position q))).
    apply in_map_iff. now exists q.
  - unfold executeTakeFirst in Hfirst.
    destruct (orderBy _ _ _) eqn:Ho; [|discriminate].
    apply orderBy_nil_iff in Ho. now apply map_eq_nil in Ho.
Qed.

(** C3. When [create] succeeds on a request whose parent is absent or a
    non-empty id, the new row is appended to the table with the parent
    and space of the request, and its position is what the generator
    returned: for an empty sibling group with both bounds null, and
    otherwise with right bound null and, as left bound, the position of
    a member of the group that no member of the group exceeds. *)
Theorem create_position_from_group
        (userId workspaceId : string) (dto : CreatePageDto)
        (w w' : World Entropy) (created : Page) :
  cr_parentPageId dto <> Str "" ->
  create generateJitteredKeyBetween gen_uuid userId workspaceId dto w
  = (Returned created, w') ->
  let group := filter (in_group (cr_spaceId dto)
                                (to_column (cr_parentPageId dto)))
                      (pages w) in
  pages w' = (pages w ++ [created])%list
  /\ parentPageId created = to_column (cr_parentPageId dto)
  /\ spaceId created = cr_spaceId dto
  /\ (group = [] ->
      exists e1,
        generateJitteredKeyBetween None None (entropy w)
        = (Returned (position created), e1))
  /\ (group <> [] ->
      exists last e1,
        In last group
        /\ (forall q, In q group ->
                      String.leb (position q) (position last) = true)
        /\ generateJitteredKeyBetween (Some (position last)) None (entropy w)
           = (Returned (position created), e1)).
Proof.
  intros Hwf Hrun group.
  pose proof (lastPage_spec (cr_spaceId dto)
                            (to_column (cr_parentPageId dto)) (pages w))
    as Hlast.
  simpl in Hlast. subst group.
  unfold create in Hrun.
  assert (Hparent :
            (if truthy (cr_parentPageId dto)
             then Some (str_of (cr_parentPageId dto)) else None)
            = to_column (cr_parentPageId dto)).
  { destruct (truthy (cr_parentPageId dto)) eqn:Ht.
    - apply truthy_is_str in Ht. destruct Ht as (s & -> & _). reflexivity.
    - destruct (falsy_is_absent Ht Hwf) as [-> | ->]; reflexivity. }
  destruct (truthy (cr_parentPageId dto)) eqn:Ht; revert Hrun; run;
    rewrite Hparent.
  1: destruct (find_row _ (pages w)); simpl; [|discriminate].
  all: revert Hlast;
    destruct (executeTakeFirst _) as [lastPage|]; simpl; intro Hlast;
    (destruct (generateJitteredKeyBetween _ _ _) as [[k|ex] e1] eqn:Hgen;
     simpl; [|discriminate]);
    destruct (gen_uuid e1) as [i e2]; simpl;
    intro H; injection H as <- <-; simpl;
    do 3 (split; [reflexivity|]); split.
  all: try (destruct Hlast as (last & Hin & Hpos & Hmax)).
  - intro Hnil. rewrite Hnil in Hin. contradiction.
  - intros _. exists last, e1. rewrite <- Hpos in Hgen. auto.
  - intros _. now exists e1.
  - intro Hne. contradiction.
  - intro Hnil. rewrite Hnil in Hin. contradiction.
  - intros _. exists last, e1. rewrite <- Hpos in Hgen. auto.
  - intros _. now exists e1.
  - intro Hne. contradiction.
Qed.

(* ------------------------------------------------------------------ *)
(** ** [movePage]: what a successful move writes *)

Lemma update_rows_position (pos pageId : string) (table : list Page) :
  update_rows (mkUpdatable Undefined Undefined Undefined Undefined Undefined
                           (Some pos) Undefined Undefined)
              pageId table
  = rewrite_rows pageId (with_position pos) table.
Proof. reflexivity. Qed.

Lemma update_rows_position_parent (pos pageId : string) (v : MaybeStr)
      (table : list Page) :
  v <> Undefined ->
  update_rows (mkUpdatable Undefined Undefined Undefined Undefined Undefined
                           (Some pos) v Undefined)
              pageId table
  = rewrite_rows pageId
                 (fun p => with_parent (to_column v) (with_position pos p))
                 table.
Proof.
  intro Hv. unfold update_rows, rewrite_rows. apply map_ext. intro p.
  destruct (id p =? pageId); [|reflexivity].
  destruct v; [contradiction| |]; reflexivity.
Qed.

(** The table after a move that passed its checks. *)
Lemma movePage_success
      (dto : MovePageDto) (w w' : World Entropy) :
  movePage generateJitteredKeyBetween dto w = (Returned tt, w') ->
  exists moved,
    find_row (mv_pageId dto) (pages w) = Some moved
    /\ pages w'
       = update_rows
           (mkUpdatable Undefined Undefined Undefined Undefined Undefined
                        (Some (mv_position dto))
                        (if strict_eq (of_column (parentPageId moved))
                                      (mv_parentPageId dto)
                         then Undefined else mv_parentPageId dto)
                        Undefined)
           (mv_pageId dto) (pages w).
Proof.
  destruct (generateJitteredKeyBetween (Some (mv_position dto)) None
                                       (entropy w)) as [[k|ex] e1] eqn:Hgen.
  - rewrite (movePage_valid_position _ _ Hgen). run.
    destruct (find_row (mv_pageId dto) (pages w)) as [moved|];
      simpl; [|discriminate].
    intro Hrun. exists moved. split; [reflexivity|]. revert Hrun.
    destruct (strict_eq _ _); simpl.
    + intro H. now injection H as <-.
    + destruct (truthy (mv_parentPageId dto)); simpl.
      * destruct (find_row (str_of _) _); simpl; [|discriminate].
        intro H. now injection H as <-.
      * intro H. now injection H as <-.
  - unfold movePage. run. rewrite Hgen. discriminate.
Qed.

(** C4 (amended). After a successful move the moved page was stored.  If
    the request's parent is strictly equal to the page's current parent,
    only the position is written, with the position of the request.  If
    it is not, and is null or a string, both the parent and the position
    are written, with the values of the request.  In both cases every
    other column of the row and every other row are as before.  The
    position is the one the request carries: the service computes
    none. *)
Theorem movePage_writes
        (dto : MovePageDto) (w w' : World Entropy) :
  movePage generateJitteredKeyBetween dto w = (Returned tt, w') ->
  exists moved,
    find_row (mv_pageId dto) (pages w) = Some moved
    /\ (mv_parentPageId dto = of_column (parentPageId moved) ->
        pages w'
        = rewrite_rows (mv_pageId dto) (with_position (mv_position dto))
                       (pages w))
    /\ (mv_parentPageId dto <> of_column (parentPageId moved) ->
        mv_parentPageId dto <> Undefined ->
        pages w'
        = rewrite_rows (mv_pageId dto)
                       (fun p => with_parent (to_column (mv_parentPageId dto))
                                             (with_position (mv_position dto)
                                                            p))
                       (pages w)).
Proof.
  intro Hrun. destruct (movePage_success _ _ Hrun) as (moved & Hfind & Hw').
  exists moved. split; [assumption|]. split.
  - intro Heq. rewrite Hw'.
    assert (H : strict_eq (of_column (parentPageId moved))
                          (mv_parentPageId dto) = true)
      by (apply strict_eq_true_iff; congruence).
    rewrite H. apply update_rows_position.
  - intros Hneq Hdef. rewrite Hw'.
    destruct (strict_eq _ _) eqn:H.
    + apply strict_eq_true_iff in H. congruence.
    + now apply update_rows_position_parent.
Qed.

(** A request that leaves [parentPageId] out writes the position only,
    whatever the current parent of the page is. *)
Lemma movePage_parent_omitted
      (dto : MovePageDto) (w w' : World Entropy) :
  mv_parentPageId dto = Undefined ->
  movePage generateJitteredKeyBetween dto w = (Returned tt, w') ->
  pages w'
  = rewrite_rows (mv_pageId dto) (with_position (mv_position dto)) (pages w).
Proof.
  intros Hu Hrun. destruct (movePage_success _ _ Hrun) as (moved & _ & ->).
  rewrite Hu. destruct (strict_eq _ _); apply update_rows_position.
Qed.

(** C8. A move with a position the generator accepts, of a stored page,
    to its current parent, to no parent or to a stored parent, succeeds
    and writes the position of the request as it is: every row of that
    id then has this position, and every other row is kept as it was,
    whatever its position, so a sibling that already had this position
    still has it. *)
Theorem movePage_position_verbatim
        (dto : MovePageDto) (w : World Entropy) (moved : Page)
        (k : string) (e' : Entropy) :
  generateJitteredKeyBetween (Some (mv_position dto)) None (entropy w)
  = (Returned k, e') ->
  find_row (mv_pageId dto) (pages w) = Some moved ->
  (mv_parentPageId dto = of_column (parentPageId moved)
   \/ truthy (mv_parentPageId dto) = false
   \/ find_row (str_of (mv_parentPageId dto)) (pages w) <> None) ->
  exists w',
    movePage generateJitteredKeyBetween dto w = (Returned tt, w')
    /\ (forall p, In p (pages w') -> id p = mv_pageId dto ->
                  position p = mv_position dto)
    /\ (forall q, In q (pages w) -> id q <> mv_pageId dto ->
                  In q (pages w')).
Proof.
  intros Hgen Hfind Hparent.
  assert (Hrun : exists w',
             movePage generateJitteredKeyBetween dto w = (Returned tt, w')).
  { rewrite (movePage_valid_position _ _ Hgen). run. rewrite Hfind.
    destruct (strict_eq _ _) eqn:Heq; simpl; [eauto|].
    destruct (truthy (mv_parentPageId dto)) eqn:Ht; simpl; [|eauto].
    destruct Hparent as [H|[H|H]].
    - symmetry in H. apply strict_eq_true_iff in H. congruence.
    - discriminate.
    - destruct (find_row (str_of _) _); simpl; [eauto|contradiction]. }
  destruct Hrun as (w' & Hrun). exists w'. split; [assumption|].
  destruct (movePage_success _ _ Hrun) as (moved' & _ & ->).
  unfold update_rows. split.
  - intros p Hin Hid. apply in_map_iff in Hin.
    destruct Hin as (q & <- & _).
    destruct (id q =? mv_pageId dto) eqn:E; [reflexivity|].
    apply String.eqb_neq in E. contradiction.
  - intros q Hin Hid. apply in_map_iff. exists q.
    apply String.eqb_neq in Hid. now rewrite Hid.
Qed.

(* ------------------------------------------------------------------ *)
(** ** [update] and [updateState]: the columns left alone *)

Lemma apply_update_same_placement (f : UpdatablePage) (p : Page) :
  upd_position f = None -> upd_parentPageId f = Undefined ->
  same_placement p (apply_update f p).
Proof.
  intros Hpos Hpar. unfold same_placement, apply_update. simpl.
  rewrite Hpos, Hpar. simpl. repeat split.
Qed.

(** C5. [update] and [updateState] rewrite the rows of the given id and
    no other row; a rewritten row keeps its [id], [position],
    [parentPageId], [spaceId], [workspaceId] and [creatorId], so only
    [title], [icon], [content], [textContent], [ydoc] and
    [lastUpdatedById] can differ. *)
Theorem update_keeps_placement (w : World Entropy) (pageId : string) :
  (forall dto userId,
      exists f,
        (forall p, same_placement p (f p))
        /\ pages (snd (update pageId dto userId w))
           = rewrite_rows pageId f (pages w))
  /\ (forall content' textContent' ydoc' userId,
         exists f,
           (forall p, same_placement p (f p))
           /\ pages (snd (updateState pageId content' textContent' ydoc'
                                      userId w))
              = rewrite_rows pageId f (pages w)).
Proof.
  split.
  - intros dto userId.
    exists (apply_update (mkUpdatable (up_title dto) (up_icon dto) Undefined
                                      Undefined Undefined None Undefined
                                      (Str userId))).
    split; [intro p; now apply apply_update_same_placement|reflexivity].
  - intros content' textContent' ydoc' userId.
    exists (apply_update (mkUpdatable Undefined Undefined content'
                                      (Str textContent') ydoc' None Undefined
                                      (if truthy userId then userId
                                       else Undefined))).
    split; [intro p; now apply apply_update_same_placement|reflexivity].
Qed.

(* ------------------------------------------------------------------ *)
(** ** [getSidebarPages] *)

Section Sidebar.
Variable Paginated : Type.
Variable executeWithPagination : list SidebarRow -> PageWindow -> Paginated.

Lemma getSidebarPages_run (dto : SidebarPageDto)
      (pagination : PaginationOptions) (w : World Entropy) :
  getSidebarPages executeWithPagination dto pagination w
  = (Returned (executeWithPagination
                 (sidebarQuery (sb_spaceId dto) (sidebar_parent dto)
                               (pages w))
                 (mkPageWindow (page pagination) 250)),
     mkWorld (pages w)
             (calls w ++ [CallSelect (sb_spaceId dto) (sidebar_parent dto)])
             (entropy w)).
Proof. reflexivity. Qed.

(** C9. Whatever the pagination function is, [getSidebarPages] calls it
    with the page number of the request and the page size 250, and its
    outcome does not depend on the [limit] of the request. *)
Theorem getSidebarPages_page_size
        (dto : SidebarPageDto) (pagination : PaginationOptions)
        (w : World Entropy) :
  fst (getSidebarPages executeWithPagination dto pagination w)
  = Returned (executeWithPagination
                (sidebarQuery (sb_spaceId dto) (sidebar_parent dto) (pages w))
                (mkPageWindow (page pagination) 250))
  /\ forall limit',
      getSidebarPages executeWithPagination dto
                      (mkPaginationOptions (page pagination) limit') w
      = getSidebarPages executeWithPagination dto pagination w.
Proof. split; [reflexivity|]. intro limit'. reflexivity. Qed.

End Sidebar.

Lemma sidebar_parent_to_column (dto : SidebarPageDto) :
  sb_pageId dto <> Str "" -> sidebar_parent dto = to_column (sb_pageId dto).
Proof.
  intro Hwf. unfold sidebar_parent.
  destruct (truthy (sb_pageId dto)) eqn:Ht.
  - apply truthy_is_str in Ht. destruct Ht as (s & -> & _). reflexivity.
  - destruct (falsy_is_absent Ht Hwf) as [-> | ->]; reflexivity.
Qed.

(** C6 (amended). For a request whose [pageId] is absent or a non-empty
    id, [getSidebarPages] returns one window of the ordered sibling
    group: the rows of the group are exactly the rows of the table with
    the space of the request and that parent (the root rows when
    [pageId] is absent), they are in ascending order of position, and
    the items returned are at most 250 of them, from offset
    [(page - 1) * 250].  The table is unchanged. *)
Theorem getSidebarPages_window
        (dto : SidebarPageDto) (pagination : PaginationOptions)
        (w : World Entropy) :
  sb_pageId dto <> Str "" ->
  exists rows w',
    getSidebarPages (@paginate SidebarRow) dto pagination w
    = (Returned (paginate rows (mkPageWindow (page pagination) 250)), w')
    /\ pages w' = pages w
    /\ Permutation
         (map (sidebar_row (pages w))
              (filter (in_group (sb_spaceId dto) (to_column (sb_pageId dto)))
                      (pages w)))
         rows
    /\ StronglySorted
         (fun a b => String.leb (sr_position a) (sr_position b) = true) rows
    /\ items (paginate rows (mkPageWindow (page pagination) 250))
       = firstn 250 (skipn ((page pagination - 1) * 250) rows).
Proof.
  intro Hwf. rewrite getSidebarPages_run.
  rewrite (sidebar_parent_to_column _ Hwf).
  do 2 eexists. split; [reflexivity|]. split; [reflexivity|].
  split; [apply orderBy_perm|]. split; [|reflexivity].
  apply (orderBy_sorted sr_position Asc).
Qed.

End PageServiceFacts.

(* ================================================================== *)
(** * The comment list item: saving an edited comment *)

Section CommentListItemFacts.
Variable Content : Type.
Variable JSON_stringify : Content -> string.
Variable mutateAsync :
  CommentListItem.CommentUpdate -> Outcome CommentListItem.IComment.
Variable render_error : Exception -> string.

(** C10. [handleUpdateComment] always returns, with [isLoading] false
    and the edited content kept.  When the mutation resolves,
    [isEditing] is false afterwards and nothing is logged.  When it
    rejects, [isEditing] is as it was before the call, so an open
    editor stays open, and the only other effect is one line on the
    console. *)
Theorem handleUpdateComment_leaves_editing_on_success_only
        (comment : CommentListItem.IComment)
        (s : CommentListItem.State Content) :
  exists s',
    CommentListItem.handleUpdateComment JSON_stringify mutateAsync
                                        render_error comment s
    = (Returned tt, s')
    /\ CommentListItem.isLoading s' = false
    /\ CommentListItem.content s' = CommentListItem.content s
    /\ match mutateAsync
               (CommentListItem.mkCommentUpdate
                  (CommentListItem.comment_id comment)
                  (JSON_stringify (CommentListItem.content s)))
       with
       | Returned _ =>
           CommentListItem.isEditing s' = false
           /\ CommentListItem.console s' = CommentListItem.console s
       | Thrown e =>
           CommentListItem.isEditing s' = CommentListItem.isEditing s
           /\ CommentListItem.console s'
              = (CommentListItem.console s
                   ++ [("Failed to update comment:" ++ " "
                          ++ render_error e)%string])%list
       end.
Proof.
  unfold CommentListItem.handleUpdateComment, try_catch_finally, try_catch,
    CommentListItem.setIsLoading, CommentListItem.setIsEditing,
    CommentListItem.console_error, CommentListItem.await,
    bind, gets, modify.
  simpl.
  destruct (mutateAsync _) as [updated|e]; simpl;
    eexists; repeat split.
Qed.

End CommentListItemFacts.

(* ================================================================== *)
(** * The service on concrete requests *)

(** C1, on a request: moving page ["id-1"] to the position
    ["not a key"], which the sample generator rejects. *)
Lemma movePage_invalid_position_rejected_witness :
  exists w',
    movePage Demo.sampleKeyBetween
             (mkMovePageDto "id-1" "not a key" Null)
             (Demo.world Demo.family)
    = (Thrown (BadRequestException "Invalid move position"), w')
    /\ pages w' = pages (Demo.world Demo.family)
    /\ calls w' = calls (Demo.world Demo.family).
Proof.
  apply (@movePage_invalid_position_rejected
           Demo.Entropy Demo.sampleKeyBetween
           (mkMovePageDto "id-1" "not a key" Null)
           (Demo.world Demo.family)
           (Error "invalid order key") 0).
  reflexivity.
Defined.

(** C2 (amended), on requests: creating under the parent ["id-9"] and
    moving the page ["id-9"], when no row has that id. *)
Lemma missing_page_not_found_witness :
  fails_not_found
    (create Demo.sampleKeyBetween Demo.sample_uuid "user-1" "workspace-1"
            (mkCreatePageDto (Str "Notes") Undefined (Str "id-9") "space-1"))
    (Demo.world Demo.family)
  /\ fails_not_found
       (movePage Demo.sampleKeyBetween (mkMovePageDto "id-9" "a2" Null))
       (Demo.world Demo.family).
Proof.
  destruct (@missing_page_not_found
              Demo.Entropy Demo.sampleKeyBetween Demo.sample_uuid
              (Demo.world Demo.family)) as [Hc Hm].
  split.
  - apply Hc. exists "id-9".
    split; [reflexivity|]. split; [discriminate|reflexivity].
  - apply (Hm (mkMovePageDto "id-9" "a2" Null) "a2V" 1).
    + reflexivity.
    + left. reflexivity.
Defined.

(** C2 as stated fails: a move of the page ["id-9"], which is not
    stored, to the position ["not a key"] does not fail with a not-found
    error but with the bad-request error of the position check, which
    comes first. *)
Lemma move_missing_page_invalid_position :
  find_row "id-9" (pages (Demo.world Demo.family)) = None
  /\ movePage Demo.sampleKeyBetween
              (mkMovePageDto "id-9" "not a key" Null)
              (Demo.world Demo.family)
     = (Thrown (BadRequestException "Invalid move position"),
        Demo.world Demo.family)
  /\ ~ fails_not_found
         (movePage Demo.sampleKeyBetween
                   (mkMovePageDto "id-9" "not a key" Null))
         (Demo.world Demo.family).
Proof.
  split; [reflexivity|]. split; [reflexivity|].
  intros (msg & w' & Hrun & _).
  vm_compute in Hrun. discriminate Hrun.
Qed.

(** C3, on a request: creating a page under ["id-0"], whose children
    have the positions ["a0"] and ["a1"]. *)
Lemma create_position_from_group_witness :
  exists created w',
    create Demo.sampleKeyBetween Demo.sample_uuid "user-1" "workspace-1"
           (mkCreatePageDto (Str "Notes") Undefined (Str "id-0") "space-1")
           (Demo.world Demo.family)
    = (Returned created, w')
    /\ position created = "a1V"
    /\ pages w' = (Demo.family ++ [created])%list
    /\ exists last e1,
        In last (filter (in_group "space-1" (Some "id-0")) Demo.family)
        /\ (forall q,
               In q (filter (in_group "space-1" (Some "id-0")) Demo.family) ->
               String.leb (position q) (position last) = true)
        /\ Demo.sampleKeyBetween (Some (position last)) None 0
           = (Returned (position created), e1).
Proof.
  destruct (create Demo.sampleKeyBetween Demo.sample_uuid "user-1"
                   "workspace-1"
                   (mkCreatePageDto (Str "Notes") Undefined (Str "id-0")
                                    "space-1")
                   (Demo.world Demo.family))
    as [[created|ex] w'] eqn:Hrun.
  - exists created, w'. split; [reflexivity|].
    assert (Hwf : Str "id-0" <> Str "") by discriminate.
    destruct (@create_position_from_group
                Demo.Entropy Demo.sampleKeyBetween Demo.sample_uuid
                "user-1" "workspace-1"
                (mkCreatePageDto (Str "Notes") Undefined (Str "id-0")
                                 "space-1")
                (Demo.world Demo.family) w' created Hwf Hrun)
      as (Hpages & _ & _ & _ & Hlast).
    split; [|split; [exact Hpages|apply Hlast; discriminate]].
    vm_compute in Hrun. injection Hrun as <- _. reflexivity.
  - vm_compute in Hrun. discriminate Hrun.
Defined.

(** C4 (amended), on a request: moving ["id-1"] from under ["id-0"] to
    under ["id-2"], at position ["a5"]. *)
Lemma movePage_writes_witness :
  exists w',
    movePage Demo.sampleKeyBetween (mkMovePageDto "id-1" "a5" (Str "id-2"))
             (Demo.world Demo.family)
    = (Returned tt, w')
    /\ pages w'
       = rewrite_rows "id-1"
                      (fun p => with_parent (Some "id-2")
                                            (with_position "a5" p))
                      Demo.family.
Proof.
  destruct (movePage Demo.sampleKeyBetween
                     (mkMovePageDto "id-1" "a5" (Str "id-2"))
                     (Demo.world Demo.family))
    as [[[]|ex] w'] eqn:Hrun.
  - exists w'. split; [reflexivity|].
    destruct (@movePage_writes
                Demo.Entropy Demo.sampleKeyBetween
                (mkMovePageDto "id-1" "a5" (Str "id-2"))
                (Demo.world Demo.family) w' Hrun)
      as (moved & Hfind & _ & Hother).
    vm_compute in Hfind. injection Hfind as <-.
    apply Hother; discriminate.
  - vm_compute in Hrun. discriminate Hrun.
Defined.

(** C4 as stated fails: a request that leaves [parentPageId] out names
    no parent, the page ["id-1"] has the parent ["id-0"], and after the
    move it still has it. *)
Lemma move_to_root_parent_omitted :
  exists w',
    movePage Demo.sampleKeyBetween (mkMovePageDto "id-1" "a5" Undefined)
             (Demo.world Demo.family)
    = (Returned tt, w')
    /\ option_map parentPageId (find_row "id-1" (pages w'))
       = Some (Some "id-0")
    /\ ~ move_updates_parent (mkMovePageDto "id-1" "a5" Undefined)
                             Demo.family (pages w').
Proof.
  eexists. split; [vm_compute; reflexivity|].
  split; [reflexivity|].
  intro Hclaim.
  destruct (Hclaim (Demo.samplePage "id-1" "a0" (Some "id-0")))
    as (moved' & Hfind & Hparent & _);
    [reflexivity|discriminate|].
  vm_compute in Hfind. injection Hfind as <-.
  discriminate Hparent.
Qed.

(** C8, on a request: moving ["id-3"] within its group to the position
    ["a0"], which its sibling ["id-1"] has; afterwards both rows have
    it. *)
Lemma movePage_position_verbatim_witness :
  exists w',
    movePage Demo.sampleKeyBetween (mkMovePageDto "id-3" "a0" (Str "id-0"))
             (Demo.world Demo.family)
    = (Returned tt, w')
    /\ In (Demo.samplePage "id-1" "a0" (Some "id-0")) (pages w')
    /\ In (Demo.samplePage "id-3" "a0" (Some "id-0")) (pages w').
Proof.
  destruct (@movePage_position_verbatim
              Demo.Entropy Demo.sampleKeyBetween
              (mkMovePageDto "id-3" "a0" (Str "id-0"))
              (Demo.world Demo.family)
              (Demo.samplePage "id-3" "a1" (Some "id-0"))
              "a0V" 1)
    as (w' & Hrun & _ & Hkept);
    [reflexivity|reflexivity|left; reflexivity|].
  exists w'. split; [exact Hrun|]. split.
  - apply Hkept; [simpl; auto|discriminate].
  - vm_compute in Hrun. injection Hrun as <-. simpl. auto.
Defined.

(** C6 (amended), on a request: the root pages of the sample table. *)
Lemma getSidebarPages_window_witness :
  exists rows w',
    getSidebarPages (@paginate SidebarRow)
                    (mkSidebarPageDto "space-1" Undefined)
                    (mkPaginationOptions 1 20)
                    (Demo.world Demo.family)
    = (Returned (paginate rows (mkPageWindow 1 250)), w')
    /\ map sr_id (items (paginate rows (mkPageWindow 1 250)))
       = ["id-0"; "id-2"].
Proof.
  destruct (@getSidebarPages_window
              Demo.Entropy
              (mkSidebarPageDto "space-1" Undefined)
              (mkPaginationOptions 1 20)
              (Demo.world Demo.family))
    as (rows & w' & Hrun & _);
    [discriminate|].
  exists rows, w'. split; [exact Hrun|].
  rewrite getSidebarPages_run in Hrun.
  apply (f_equal fst) in Hrun. cbn [fst] in Hrun.
  apply Returned_inj in Hrun. cbn [page] in Hrun.
  rewrite <- Hrun. reflexivity.
Defined.

(** C6 as stated fails: of 251 root pages of one space, the first page
    of the sidebar returns 250, and the one with the last position is
    not among them. *)
Lemma sidebar_of_251_pages :
  List.length (filter (in_group "space-1" None) (Demo.crowd 251)) = 251
  /\ exists result w',
      getSidebarPages (@paginate SidebarRow)
                      (mkSidebarPageDto "space-1" Undefined)
                      (mkPaginationOptions 1 20)
                      (Demo.world (Demo.crowd 251))
      = (Returned result, w')
      /\ List.length (items result) = 250
      /\ ~ returns_whole_group (mkSidebarPageDto "space-1" Undefined)
                               (Demo.crowd 251) result.
Proof.
  split; [vm_compute; reflexivity|].
  do 2 eexists. split; [reflexivity|].
  split; [vm_compute; reflexivity|].
  intro Hclaim.
  assert (Hin : In (nth 250 (Demo.crowd 251) (Demo.samplePage "" "" None))
                   (Demo.crowd 251))
    by (apply nth_In; vm_compute; lia).
  assert (Hgroup : in_group "space-1" None
                             (nth 250 (Demo.crowd 251)
                                  (Demo.samplePage "" "" None)) = true)
    by (vm_compute; reflexivity).
  specialize (Hclaim _ Hin Hgroup). clear Hin Hgroup.
  assert (Hb : existsb
                 (String.eqb
                    (id (nth 250 (Demo.crowd 251)
                             (Demo.samplePage "" "" None))))
                 (map sr_id
                      (items
                         (paginate
                            (sidebarQuery "space-1" None (Demo.crowd 251))
                            (mkPageWindow 1 250))))
               = true).
  { apply existsb_exists. eexists. split; [exact Hclaim|].
    apply String.eqb_refl. }
  vm_compute in Hb. discriminate Hb.
Qed.

(** The position a move writes is not computed from the destination
    group: moving the root page ["id-2"] under ["id-0"] with the
    position ["a0"] gives it the position a child of ["id-0"] already
    has. *)
Lemma move_into_group_keeps_request_position :
  exists w',
    movePage Demo.sampleKeyBetween (mkMovePageDto "id-2" "a0" (Str "id-0"))
             (Demo.world Demo.family)
    = (Returned tt, w')
    /\ In (Demo.samplePage "id-1" "a0" (Some "id-0")) (pages w')
    /\ In (Demo.samplePage "id-2" "a0" (Some "id-0")) (pages w').
Proof.
  eexists. split; [vm_compute; reflexivity|]. simpl. auto.
Qed.

(** The first page of an empty space takes the key generated with both
    bounds null, the next root page the key generated after it. *)
Example create_first_pages :
  exists first w1 second w2,
    create Demo.sampleKeyBetween Demo.sample_uuid "user-1" "workspace-1"
           (mkCreatePageDto (Str "Home") Undefined Undefined "space-1")
           (Demo.world [])
    = (Returned first, w1)
    /\ create Demo.sampleKeyBetween Demo.sample_uuid "user-1" "workspace-1"
              (mkCreatePageDto (Str "Notes") Undefined Null "space-1") w1
       = (Returned second, w2)
    /\ position first = "a0"
    /\ position second = "a0V"
    /\ map id (pages w2) = ["new-0"; "new-000"]
    /\ filter is_write (calls w2)
       = [CallInsertPage (mkInsertable (Str "Home") "a0" Undefined Undefined
                                       "space-1" "user-1" "workspace-1"
                                       "user-1");
          CallInsertPage (mkInsertable (Str "Notes") "a0V" Undefined Null
                                       "space-1" "user-1" "workspace-1"
                                       "user-1")].
Proof.
  do 4 eexists.
  split; [vm_compute; reflexivity|].
  split; [vm_compute; reflexivity|].
  repeat split.
Qed.

(** The children of ["id-0"] in the sidebar, in order of position, and
    the root pages with their [hasChildren] flag. *)
Example sidebar_of_family :
  map sr_id (sidebarQuery "space-1" (Some "id-0") Demo.family)
  = ["id-1"; "id-3"]
  /\ map (fun r => (sr_id r, sr_hasChildren r))
         (sidebarQuery "space-1" None Demo.family)
     = [("id-0", true); ("id-2", false)].
Proof. split; reflexivity. Qed.

(** Saving an edited comment when the mutation rejects: the editor
    stays open and the failure is logged. *)
Example save_comment_rejected :
  CommentListItem.handleUpdateComment
    (fun c : string => c)
    (fun _ => Thrown (Error "network"))
    (fun _ => "Error: network")
    (CommentListItem.mkIComment "c-1" "id-0")
    (CommentListItem.mkState true false "edited" [])
  = (Returned tt,
     CommentListItem.mkState true false "edited"
       ["Failed to update comment: Error: network"]).
Proof. reflexivity. Qed.

(** Saving an edited comment when the mutation resolves: the editor
    closes. *)
Example save_comment_resolved :
  CommentListItem.handleUpdateComment
    (fun c : string => c)
    (fun u => Returned (CommentListItem.mkIComment
                          (CommentListItem.cu_id u) "id-0"))
    (fun _ => "")
    (CommentListItem.mkIComment "c-1" "id-0")
    (CommentListItem.mkState true false "edited" [])
  = (Returned tt, CommentListItem.mkState false false "edited" []).
Proof. reflexivity. Qed.

(* ================================================================== *)
(** * More about the table operations *)

Lemma apply_update_id (f : UpdatablePage) (p : Page) :
  id (apply_update f p) = id p.
Proof. reflexivity. Qed.

Lemma map_id_update_rows (f : UpdatablePage) (pageId : string)
      (table : list Page) :
  map id (update_rows f pageId table) = map id table.
Proof.
  unfold update_rows. rewrite map_map. apply map_ext. intro p.
  now destruct (id p =? pageId).
Qed.

(** A lookup after an update: the row found before, updated if it is
    the one written. *)
Lemma find_row_update_rows (f : UpdatablePage) (i pageId : string)
      (table : list Page) :
  find_row i (update_rows f pageId table)
  = if i =? pageId
    then option_map (apply_update f) (find_row i table)
    else find_row i table.
Proof.
  unfold find_row, update_rows.
  induction table as [|p table IH]; simpl.
  - now destruct (i =? pageId).
  - destruct (id p =? pageId) eqn:Hp; simpl.
    + destruct (id p =? i) eqn:Hi.
      * apply String.eqb_eq in Hp, Hi.
        assert (E : (i =? pageId) = true) by (apply String.eqb_eq; congruence).
        now rewrite E.
      * exact IH.
    + destruct (id p =? i) eqn:Hi.
      * apply String.eqb_eq in Hi. apply String.eqb_neq in Hp.
        assert (E : (i =? pageId) = false)
          by (apply String.eqb_neq; congruence).
        now rewrite E.
      * exact IH.
Qed.

Lemma find_row_some (i : string) (table : list Page) (p : Page) :
  find_row i table = Some p -> In p table /\ id p = i.
Proof.
  unfold find_row. intro H. apply find_some in H.
  destruct H as [Hin Hid]. now apply String.eqb_eq in Hid.
Qed.

Lemma find_row_none (i : string) (table : list Page) :
  find_row i table = None <-> ~ In i (map id table).
Proof.
  unfold find_row. split.
  - intros H Hin. apply in_map_iff in Hin. destruct Hin as (p & Hid & Hin).
    pose proof (find_none _ _ H p Hin) as Hn. simpl in Hn.
    apply String.eqb_neq in Hn. contradiction.
  - intro Hn. destruct (find _ table) as [p|] eqn:Hf; [|reflexivity].
    apply find_some in Hf. destruct Hf as [Hin Hid].
    apply String.eqb_eq in Hid. exfalso. apply Hn.
    apply in_map_iff. now exists p.
Qed.

(** An update of an id no row has changes nothing. *)
Lemma update_rows_missing (f : UpdatablePage) (pageId : string)
      (table : list Page) :
  find_row pageId table = None -> update_rows f pageId table = table.
Proof.
  unfold find_row, update_rows.
  induction table as [|p table IH]; simpl; [reflexivity|].
  destruct (id p =? pageId); [discriminate|].
  intro H. now rewrite IH.
Qed.

(** With unique ids, an update rewrites the one row found. *)
Lemma update_rows_unique (g : Page -> Page) (pageId : string)
      (table : list Page) (p : Page) :
  NoDup (map id table) ->
  find_row pageId table = Some p ->
  g p = p ->
  map (fun q => if id q =? pageId then g q else q) table = table.
Proof.
  unfold find_row.
  induction table as [|q table IH]; simpl; [reflexivity|].
  intros Hnd Hfind Hg. inversion Hnd as [|? ? Hnotin Hnd']; subst.
  destruct (id q =? pageId) eqn:Hq.
  - injection Hfind as ->. rewrite Hg. f_equal.
    apply String.eqb_eq in Hq.
    assert (Hmiss : find_row pageId table = None)
      by (apply find_row_none; congruence).
    clear - Hmiss. unfold find_row in Hmiss.
    induction table as [|r table IH]; simpl in *; [reflexivity|].
    destruct (id r =? pageId); [discriminate|]. now rewrite IH.
  - f_equal. now apply IH.
Qed.

Lemma find_row_app_new (i : string) (table : list Page) (p : Page) :
  find_row i (table ++ [p])
  = match find_row i table with
    | Some q => Some q
    | None => if id p =? i then Some p else None
    end.
Proof.
  unfold find_row. induction table as [|q table IH]; simpl.
  - reflexivity.
  - destruct (id q =? i); [reflexivity|exact IH].
Qed.

(* ------------------------------------------------------------------ *)
(** ** Ordering and appending *)

Section OrderByMore.
Variables A B : Type.

Lemma place_map (f : A -> B) (key : B -> string) (dir : Direction)
      (x : A) (l : list A) :
  place key dir (f x) (map f l)
  = map f (place (fun a => key (f a)) dir x l).
Proof.
  induction l as [|y l IH]; simpl; [reflexivity|].
  assert (E : before key dir (f x) (f y)
              = before (fun a => key (f a)) dir x y)
    by (now destruct dir).
  rewrite E. destruct (before _ dir x y); simpl; [reflexivity|].
  now rewrite IH.
Qed.

Lemma orderBy_map (f : A -> B) (key : B -> string) (dir : Direction)
      (l : list A) :
  orderBy key dir (map f l) = map f (orderBy (fun a => key (f a)) dir l).
Proof.
  induction l as [|x l IH]; simpl; [reflexivity|].
  rewrite IH. apply place_map.
Qed.

Lemma place_before_last (key : A -> string) (dir : Direction)
      (y x : A) (l : list A) :
  before key dir y x = true ->
  place key dir y (l ++ [x]) = (place key dir y l ++ [x])%list.
Proof.
  intro Hyx. induction l as [|z l IH]; simpl.
  - now rewrite Hyx.
  - destruct (before key dir y z); simpl; [reflexivity|now rewrite IH].
Qed.

(** A row that every row may stand before, added at the end of the
    table, comes last in the order. *)
Lemma orderBy_app_last (key : A -> string) (dir : Direction)
      (x : A) (l : list A) :
  (forall y, In y l -> before key dir y x = true) ->
  orderBy key dir (l ++ [x]) = (orderBy key dir l ++ [x])%list.
Proof.
  induction l as [|y l IH]; simpl; intro H; [reflexivity|].
  rewrite IH by auto. apply place_before_last. auto.
Qed.

End OrderByMore.

Lemma sidebarQuery_ids (space : string) (parent : option string)
      (table : list Page) :
  map sr_id (sidebarQuery space parent table)
  = map id (orderBy position Asc (filter (in_group space parent) table)).
Proof.
  unfold sidebarQuery. rewrite orderBy_map, map_map. reflexivity.
Qed.

(* ================================================================== *)
(** * The service: every outcome of [movePage] and [create] *)

Section PageServiceOutcomes.
Variable Entropy : Type.
Variable generateJitteredKeyBetween :
  option string -> option string -> M Entropy string.
Variable gen_uuid : Entropy -> string * Entropy.

Ltac run :=
  unfold findById, updatePage, insertPage, lastPageQuery, record_call,
    set_pages, with_entropy, try_catch, bind, gets, modify, ret, throw;
  simpl.

(** [movePage], outcome by outcome. *)
Lemma movePage_eval (dto : MovePageDto) (w : World Entropy) :
  movePage generateJitteredKeyBetween dto w
  = match generateJitteredKeyBetween (Some (mv_position dto)) None
                                     (entropy w) with
    | (Thrown _, e1) =>
        (Thrown (BadRequestException "Invalid move position"),
         mkWorld (pages w) (calls w) e1)
    | (Returned _, e1) =>
        let looked := (calls w ++ [CallFindById (mv_pageId dto)])%list in
        match find_row (mv_pageId dto) (pages w) with
        | None =>
            (Thrown (NotFoundException "Moved page not found"),
             mkWorld (pages w) looked e1)
        | Some moved =>
            let fields := move_fields dto (parentPageId moved) in
            let written cs :=
              (Returned tt,
               mkWorld (update_rows fields (mv_pageId dto) (pages w))
                       (cs ++ [CallUpdatePage fields (mv_pageId dto)])%list
                       e1) in
            if strict_eq (of_column (parentPageId moved))
                         (mv_parentPageId dto)
            then written looked
            else if truthy (mv_parentPageId dto) then
                   let looked' :=
                     (looked
                        ++ [CallFindById (str_of (mv_parentPageId dto))])%list
                   in
                   match find_row (str_of (mv_parentPageId dto)) (pages w)
                   with
                   | None =>
                       (Thrown (NotFoundException "Parent page not found"),
                        mkWorld (pages w) looked' e1)
                   | Some _ => written looked'
                   end
                 else written looked
        end
    end.
Proof.
  unfold movePage, move_fields. run.
  destruct (generateJitteredKeyBetween _ _ _) as [[k|ex] e1]; simpl;
    [|reflexivity].
  destruct (find_row (mv_pageId dto) (pages w)) as [moved|]; simpl;
    [|reflexivity].
  destruct (strict_eq _ _); simpl; [reflexivity|].
  destruct (truthy (mv_parentPageId dto)); simpl; [|reflexivity].
  destruct (find_row (str_of _) _); reflexivity.
Qed.

(** [create], outcome by outcome. *)
Lemma create_eval (userId workspaceId : string) (dto : CreatePageDto)
      (w : World Entropy) :
  create generateJitteredKeyBetween gen_uuid userId workspaceId dto w
  = let looked :=
      if truthy (cr_parentPageId dto)
      then (calls w ++ [CallFindById (str_of (cr_parentPageId dto))])%list
      else calls w in
    if truthy (cr_parentPageId dto)
       && match find_row (str_of (cr_parentPageId dto)) (pages w) with
          | None => true
          | Some _ => false
          end
    then (Thrown (NotFoundException "Parent page not found"),
          mkWorld (pages w) looked (entropy w))
    else
      let selected :=
        (looked ++ [CallSelect (cr_spaceId dto) (create_parent dto)])%list in
      match generateJitteredKeyBetween
              (last_position (cr_spaceId dto) (create_parent dto) (pages w))
              None (entropy w) with
      | (Thrown e, e1) => (Thrown e, mkWorld (pages w) selected e1)
      | (Returned k, e1) =>
          let row := create_row userId workspaceId dto k in
          (Returned (new_row (fst (gen_uuid e1)) row),
           mkWorld (pages w ++ [new_row (fst (gen_uuid e1)) row])
                   (selected ++ [CallInsertPage row])
                   (snd (gen_uuid e1)))
      end.
Proof.
  unfold create, create_parent, last_position, create_row. run.
  destruct (truthy (cr_parentPageId dto)); simpl.
  - destruct (find_row _ (pages w)); simpl; [|reflexivity].
    destruct (executeTakeFirst _); simpl;
      (destruct (generateJitteredKeyBetween _ _ _) as [[k|ex] e1]; simpl;
       [destruct (gen_uuid e1)|]; reflexivity).
  - destruct (executeTakeFirst _); simpl;
      (destruct (generateJitteredKeyBetween _ _ _) as [[k|ex] e1]; simpl;
       [destruct (gen_uuid e1)|]; reflexivity).
Qed.

Lemma filter_is_write_lookups (cs : list StoreCall) (i j : string) :
  filter is_write (cs ++ [CallFindById i]) = filter is_write cs
  /\ filter is_write ((cs ++ [CallFindById i]) ++ [CallFindById j])
     = filter is_write cs.
Proof. rewrite !filter_app. simpl. rewrite !app_nil_r. auto. Qed.

(** The table after a failure. *)
Lemma movePage_failure_aux
      (dto : MovePageDto) (w w' : World Entropy) (e : Exception) :
  movePage generateJitteredKeyBetween dto w = (Thrown e, w') ->
  pages w' = pages w.
Proof.
  rewrite movePage_eval.
  destruct (generateJitteredKeyBetween _ _ _) as [[k|ex] e1]; simpl.
  - destruct (find_row (mv_pageId dto) (pages w)) as [moved|]; simpl.
    + destruct (strict_eq _ _); [discriminate|].
      destruct (truthy (mv_parentPageId dto)); [|discriminate].
      destruct (find_row (str_of _) _); [discriminate|].
      intro H. now injection H as _ <-.
    + intro H. now injection H as _ <-.
  - intro H. now injection H as _ <-.
Qed.

Lemma create_failure_writes_nothing_aux
      (userId workspaceId : string) (dto : CreatePageDto)
      (w w' : World Entropy) (e : Exception) :
  create generateJitteredKeyBetween gen_uuid userId workspaceId dto w
  = (Thrown e, w') ->
  pages w' = pages w.
Proof.
  rewrite create_eval. simpl.
  destruct (truthy (cr_parentPageId dto) && _).
  - intro H. now injection H as _ <-.
  - destruct (generateJitteredKeyBetween _ _ _) as [[k|ex] e1];
      [discriminate|].
    intro H. now injection H as _ <-.
Qed.

(** X1. Whenever [movePage] throws, the exception is one of three: the
    bad request "Invalid move position", or the not-found errors "Moved
    page not found" and "Parent page not found".  The table is then as
    before and no insert or update has reached the store. *)
Theorem movePage_failure_writes_nothing
        (dto : MovePageDto) (w w' : World Entropy) (e : Exception) :
  movePage generateJitteredKeyBetween dto w = (Thrown e, w') ->
  (e = BadRequestException "Invalid move position"
   \/ e = NotFoundException "Moved page not found"
   \/ e = NotFoundException "Parent page not found")
  /\ pages w' = pages w
  /\ filter is_write (calls w') = filter is_write (calls w).
Proof.
  rewrite movePage_eval.
  destruct (generateJitteredKeyBetween _ _ _) as [[k|ex] e1]; simpl.
  - destruct (find_row (mv_pageId dto) (pages w)) as [moved|]; simpl.
    + destruct (strict_eq _ _); [discriminate|].
      destruct (truthy (mv_parentPageId dto)); [|discriminate].
      destruct (find_row (str_of _) _); [discriminate|].
      intro H. injection H as <- <-. simpl.
      split; [auto|]. split; [reflexivity|].
      apply filter_is_write_lookups.
    + intro H. injection H as <- <-. simpl.
      split; [auto|]. split; [reflexivity|].
      apply (filter_is_write_lookups (calls w) (mv_pageId dto) "").
  - intro H. injection H as <- <-. simpl. auto.
Qed.

(** X2. [movePage] returns exactly when the generator accepts the
    position, the page is stored and, if the request names a parent
    that is truthy and not strictly equal to the page's current one,
    that parent is stored.  Nothing else decides: neither the space of
    the new parent, nor whether the new parent is the page itself or
    one of its descendants, nor the positions of the siblings. *)
Theorem movePage_returns_iff (dto : MovePageDto) (w : World Entropy) :
  (exists w', movePage generateJitteredKeyBetween dto w = (Returned tt, w'))
  <-> (exists k e1,
          generateJitteredKeyBetween (Some (mv_position dto)) None
                                     (entropy w) = (Returned k, e1))
      /\ move_targets_stored dto (pages w).
Proof.
  rewrite movePage_eval. unfold move_targets_stored.
  destruct (generateJitteredKeyBetween _ _ _) as [[k|ex] e1]; simpl.
  - destruct (find_row (mv_pageId dto) (pages w)) as [moved|]; simpl.
    + destruct (strict_eq _ _) eqn:Heq.
      * apply strict_eq_true_iff in Heq. split; [intros _|eauto].
        split; [eauto|]. exists moved. auto.
      * destruct (truthy (mv_parentPageId dto)) eqn:Ht.
        -- destruct (find_row (str_of _) _) eqn:Hp.
           ++ split; [intros _|eauto]. split; [eauto|].
              exists moved. split; [reflexivity|]. right. right. discriminate.
           ++ split; [intros [w' H]; discriminate|].
              intros (_ & moved' & Hm & Hor). exfalso.
              injection Hm as <-.
              destruct Hor as [H|[H|H]]; [|discriminate|contradiction].
              symmetry in H. apply strict_eq_true_iff in H. congruence.
        -- split; [intros _|eauto]. split; [eauto|].
           exists moved. auto.
    + split; [intros [w' H]; discriminate|].
      intros (_ & moved & Hm & _). discriminate.
  - split; [intros [w' H]; discriminate|].
    intros ((k & e2 & H) & _). discriminate.
Qed.

(** X3. Whenever [create] throws, the table is as before and no insert
    or update has reached the store.  The exception is the not-found
    error "Parent page not found" or, unchanged, the one the key
    generator threw: unlike [movePage], [create] does not turn a failure
    of the generator into a bad request. *)
Theorem create_failure_writes_nothing
        (userId workspaceId : string) (dto : CreatePageDto)
        (w w' : World Entropy) (e : Exception) :
  create generateJitteredKeyBetween gen_uuid userId workspaceId dto w
  = (Thrown e, w') ->
  pages w' = pages w
  /\ filter is_write (calls w') = filter is_write (calls w)
  /\ (e = NotFoundException "Parent page not found"
      \/ exists e1,
          generateJitteredKeyBetween
            (last_position (cr_spaceId dto) (create_parent dto) (pages w))
            None (entropy w)
          = (Thrown e, e1)).
Proof.
  rewrite create_eval. simpl.
  assert (Hlooked :
            filter is_write
                   (if truthy (cr_parentPageId dto)
                    then (calls w
                            ++ [CallFindById (str_of (cr_parentPageId dto))])
                    else calls w)%list
            = filter is_write (calls w)).
  { destruct (truthy _); [|reflexivity].
    rewrite filter_app. simpl. apply app_nil_r. }
  destruct (truthy (cr_parentPageId dto) && _).
  - intro H. injection H as <- <-. simpl. auto.
  - destruct (generateJitteredKeyBetween _ _ _) as [[k|ex] e1] eqn:Hgen;
      [discriminate|].
    intro H. injection H as <- <-. simpl.
    split; [reflexivity|]. split; [|eauto].
    rewrite filter_app. simpl. now rewrite app_nil_r.
Qed.

(** X4. [create] returns a page exactly when the parent the request
    names, if it is truthy, is stored, and the generator returns a key
    for the last position of the group.  No other condition is checked:
    in particular not that the parent belongs to the space of the
    request. *)
Theorem create_returns_iff
        (userId workspaceId : string) (dto : CreatePageDto)
        (w : World Entropy) :
  (exists created w',
      create generateJitteredKeyBetween gen_uuid userId workspaceId dto w
      = (Returned created, w'))
  <-> (truthy (cr_parentPageId dto) = true ->
       find_row (str_of (cr_parentPageId dto)) (pages w) <> None)
      /\ exists k e1,
          generateJitteredKeyBetween
            (last_position (cr_spaceId dto) (create_parent dto) (pages w))
            None (entropy w)
          = (Returned k, e1).
Proof.
  rewrite create_eval. simpl.
  destruct (truthy (cr_parentPageId dto)); simpl.
  - destruct (find_row _ (pages w)) eqn:Hp.
    + destruct (generateJitteredKeyBetween _ _ _) as [[k|ex] e1].
      * split; [intros _|eauto]. split; [discriminate|eauto].
      * split; [intros (c & w' & H); discriminate|].
        intros (_ & k & e2 & H). discriminate.
    + split; [intros (c & w' & H); discriminate|].
      intros (H & _). now destruct H.
  - destruct (generateJitteredKeyBetween _ _ _) as [[k|ex] e1].
    + split; [intros _|eauto]. split; [discriminate|eauto].
    + split; [intros (c & w' & H); discriminate|].
      intros (_ & k & e2 & H). discriminate.
Qed.

(* ------------------------------------------------------------------ *)
(** ** Rows are neither added nor removed by a move or an update *)

Lemma movePage_pages (dto : MovePageDto) (w : World Entropy) :
  pages (snd (movePage generateJitteredKeyBetween dto w)) = pages w
  \/ exists moved,
      find_row (mv_pageId dto) (pages w) = Some moved
      /\ fst (movePage generateJitteredKeyBetween dto w) = Returned tt
      /\ pages (snd (movePage generateJitteredKeyBetween dto w))
         = update_rows (move_fields dto (parentPageId moved))
                       (mv_pageId dto) (pages w).
Proof.
  rewrite movePage_eval.
  destruct (generateJitteredKeyBetween _ _ _) as [[k|ex] e1]; simpl;
    [|now left].
  destruct (find_row (mv_pageId dto) (pages w)) as [moved|]; simpl;
    [|now left].
  destruct (strict_eq _ _); [right; exists moved; auto|].
  destruct (truthy (mv_parentPageId dto)); [|right; exists moved; auto].
  destruct (find_row (str_of _) _); [right; exists moved; auto|now left].
Qed.

(** X5. Whatever their outcome, [movePage], [update] and [updateState]
    leave the ids of the table as they are, row by row: they add no
    row, remove none and change no id. *)
Theorem writes_keep_ids (w : World Entropy) :
  (forall dto,
      map id (pages (snd (movePage generateJitteredKeyBetween dto w)))
      = map id (pages w))
  /\ (forall pageId dto userId,
         map id (pages (snd (update pageId dto userId w)))
         = map id (pages w))
  /\ (forall pageId content' textContent' ydoc' userId,
         map id (pages (snd (updateState pageId content' textContent' ydoc'
                                         userId w)))
         = map id (pages w)).
Proof.
  split; [|split].
  - intro dto. destruct (movePage_pages dto w) as [->|(moved & _ & _ & ->)];
      [reflexivity|apply map_id_update_rows].
  - intros. apply map_id_update_rows.
  - intros. apply map_id_update_rows.
Qed.

(** X6. When the ids of the table are unique and the store generates an
    id that no row has, [create] leaves them unique, whatever its
    outcome. *)
Theorem create_keeps_ids_unique
        (userId workspaceId : string) (dto : CreatePageDto)
        (w : World Entropy) :
  NoDup (map id (pages w)) ->
  (forall e, ~ In (fst (gen_uuid e)) (map id (pages w))) ->
  NoDup (map id (pages (snd (create generateJitteredKeyBetween gen_uuid
                                    userId workspaceId dto w)))).
Proof.
  intros Hnd Hfresh. rewrite create_eval. simpl.
  destruct (truthy (cr_parentPageId dto) && _); [assumption|].
  destruct (generateJitteredKeyBetween _ _ _) as [[k|ex] e1]; simpl;
    [|assumption].
  rewrite map_app. simpl.
  apply NoDup_app; [assumption|repeat constructor; auto|].
  intros i Hin [<-|[]]. now apply (Hfresh e1).
Qed.

(* ------------------------------------------------------------------ *)
(** ** Looking a page up after a write *)

Lemma apply_move_fields (dto : MovePageDto) (moved : Page) :
  apply_update (move_fields dto (parentPageId moved)) moved
  = moved_row dto moved.
Proof.
  unfold moved_row, move_fields.
  destruct (strict_eq _ _); [reflexivity|].
  now destruct (mv_parentPageId dto).
Qed.

(** A successful move, with the lookups before and after it. *)
Lemma movePage_then_lookup_aux
      (dto : MovePageDto) (w w' : World Entropy) :
  movePage generateJitteredKeyBetween dto w = (Returned tt, w') ->
  exists moved,
    find_row (mv_pageId dto) (pages w) = Some moved
    /\ find_row (mv_pageId dto) (pages w') = Some (moved_row dto moved)
    /\ pages w'
       = update_rows (move_fields dto (parentPageId moved)) (mv_pageId dto)
                     (pages w).
Proof.
  intro Hrun.
  destruct (@movePage_success _ _ _ _ _ Hrun) as (moved & Hfind & Hw').
  fold (move_fields dto (parentPageId moved)) in Hw'.
  exists moved. split; [assumption|]. split; [|assumption].
  rewrite Hw', find_row_update_rows, String.eqb_refl, Hfind. simpl.
  now rewrite apply_move_fields.
Qed.

(** X7. After a successful move, a lookup of the page returns the row
    found before with the position of the request and, when the request
    names another parent (null or a string), with that parent; every
    other column is as before.  A lookup of any other id returns what
    it returned before. *)
Theorem movePage_then_lookup
        (dto : MovePageDto) (w w' : World Entropy) :
  movePage generateJitteredKeyBetween dto w = (Returned tt, w') ->
  (exists moved,
      find_row (mv_pageId dto) (pages w) = Some moved
      /\ find_row (mv_pageId dto) (pages w') = Some (moved_row dto moved))
  /\ forall i, i <> mv_pageId dto ->
               find_row i (pages w') = find_row i (pages w).
Proof.
  intro Hrun.
  destruct (@movePage_then_lookup_aux _ _ _ Hrun) as (moved & Hfind & Hfind' & Hw').
  split; [now exists moved|].
  intros i Hi. rewrite Hw', find_row_update_rows.
  apply String.eqb_neq in Hi. now rewrite Hi.
Qed.

Lemma update_rows_twice (f1 f2 : UpdatablePage) (pageId : string)
      (table : list Page) :
  update_rows f2 pageId (update_rows f1 pageId table)
  = map (fun q => if id q =? pageId
                  then apply_update f2 (apply_update f1 q) else q)
        table.
Proof.
  unfold update_rows. rewrite map_map. apply map_ext. intro q.
  destruct (id q =? pageId) eqn:Hq; simpl; now rewrite Hq.
Qed.

Lemma move_fields_again (dto : MovePageDto) (moved q : Page) :
  apply_update (move_fields dto (parentPageId (moved_row dto moved)))
               (apply_update (move_fields dto (parentPageId moved)) q)
  = apply_update (move_fields dto (parentPageId moved)) q.
Proof.
  unfold moved_row, move_fields, apply_update.
  destruct (strict_eq (of_column (parentPageId moved)) (mv_parentPageId dto))
    eqn:H1; simpl.
  - rewrite H1. reflexivity.
  - destruct (mv_parentPageId dto) as [| |s]; simpl.
    + now destruct (parentPageId moved).
    + reflexivity.
    + now rewrite String.eqb_refl.
Qed.

(** X8. A move is idempotent: when the same request succeeds a second
    time, the table is the one the first move left. *)
Theorem movePage_idempotent
        (dto : MovePageDto) (w w1 w2 : World Entropy) :
  movePage generateJitteredKeyBetween dto w = (Returned tt, w1) ->
  movePage generateJitteredKeyBetween dto w1 = (Returned tt, w2) ->
  pages w2 = pages w1.
Proof.
  intros Hfirst Hsecond.
  destruct (@movePage_then_lookup_aux _ _ _ Hfirst) as (moved & Hfind & Hfind1 & Hw1).
  destruct (@movePage_then_lookup_aux _ _ _ Hsecond) as (moved1 & Hfind1' & _ & Hw2).
  rewrite Hfind1 in Hfind1'. injection Hfind1' as <-.
  rewrite Hw2, Hw1, update_rows_twice.
  unfold update_rows. apply map_ext. intro q.
  destruct (id q =? mv_pageId dto); [apply move_fields_again|reflexivity].
Qed.

(** X9. A move can be undone: with unique ids, moving a page and then
    moving it back to the position and the parent it had gives the
    table back as it was. *)
Theorem movePage_undo
        (dto : MovePageDto) (w w1 w2 : World Entropy) (p : Page) :
  NoDup (map id (pages w)) ->
  find_row (mv_pageId dto) (pages w) = Some p ->
  movePage generateJitteredKeyBetween dto w = (Returned tt, w1) ->
  movePage generateJitteredKeyBetween
           (mkMovePageDto (mv_pageId dto) (position p)
                          (of_column (parentPageId p)))
           w1
  = (Returned tt, w2) ->
  pages w2 = pages w.
Proof.
  intros Hnd Hp Hfirst Hback.
  destruct (@movePage_then_lookup_aux _ _ _ Hfirst) as (moved & Hfind & Hfind1 & Hw1).
  rewrite Hp in Hfind. injection Hfind as <-.
  destruct (@movePage_then_lookup_aux _ _ _ Hback) as (moved1 & Hfind1' & _ & Hw2).
  simpl in Hfind1', Hw2.
  rewrite Hfind1 in Hfind1'. injection Hfind1' as <-.
  rewrite Hw2, Hw1, update_rows_twice.
  apply (@update_rows_unique _ _ _ _ Hnd Hp).
  unfold moved_row, move_fields, apply_update. destruct p as
      [i t ic c tc y pos par sp ws cr lu]. simpl.
  destruct (strict_eq (of_column par) (mv_parentPageId dto)) eqn:H1; simpl.
  - assert (H2 : strict_eq (of_column par) (of_column par) = true)
      by now apply strict_eq_true_iff.
    rewrite H2. reflexivity.
  - destruct (mv_parentPageId dto) as [| |s]; simpl.
    + assert (H2 : strict_eq (of_column par) (of_column par) = true)
        by now apply strict_eq_true_iff.
      rewrite H2. reflexivity.
    + destruct par as [s'|]; simpl; [reflexivity|discriminate].
    + destruct par as [s'|]; simpl; [|reflexivity].
      simpl in H1. rewrite String.eqb_sym, H1. reflexivity.
Qed.

(* ------------------------------------------------------------------ *)
(** ** [update] and [updateState]: the page they write *)

(** X10. [update] and [updateState] of an id that no row has do not
    fail and change no row; [update] then returns [null]. *)
Theorem update_of_missing_page (w : World Entropy) (pageId : string) :
  find_row pageId (pages w) = None ->
  (forall dto userId,
      fst (update pageId dto userId w) = Returned None
      /\ pages (snd (update pageId dto userId w)) = pages w)
  /\ (forall content' textContent' ydoc' userId,
         fst (updateState pageId content' textContent' ydoc' userId w)
         = Returned tt
         /\ pages (snd (updateState pageId content' textContent' ydoc'
                                    userId w))
            = pages w).
Proof.
  intro Hmiss. split.
  - intros dto userId. unfold update. run.
    rewrite (update_rows_missing _ _ _ Hmiss), Hmiss. auto.
  - intros. unfold updateState. run.
    rewrite (update_rows_missing _ _ _ Hmiss). auto.
Qed.


(** X12. After [updateState] of a stored page, a lookup returns the row
    with the text content of the call, with the content and the
    document of the call where they are given, and with the user as
    last updater only when a non-empty user id is given; the title, the
    icon and the placement are as before. *)
Theorem updateState_then_lookup
        (w : World Entropy) (pageId : string) (content' : MaybeStr)
        (textContent' : string) (ydoc' userId : MaybeStr) (p : Page) :
  find_row pageId (pages w) = Some p ->
  exists p',
    find_row pageId
             (pages (snd (updateState pageId content' textContent' ydoc'
                                      userId w)))
    = Some p'
    /\ content p' = assign content' (content p)
    /\ textContent p' = Some textContent'
    /\ ydoc p' = assign ydoc' (ydoc p)
    /\ lastUpdatedById p'
       = (if truthy userId then Some (str_of userId)
          else lastUpdatedById p)
    /\ title p' = title p
    /\ icon p' = icon p
    /\ same_placement p p'.
Proof.
  intro Hfind. unfold updateState. run.
  rewrite find_row_update_rows, String.eqb_refl, Hfind. simpl.
  eexists. split; [reflexivity|]. simpl.
  unfold same_placement. simpl. repeat split.
  destruct userId as [| |s]; simpl; try reflexivity.
  now destruct (s =? "").
Qed.

(* ------------------------------------------------------------------ *)
(** ** [create]: the page it adds *)

(** A successful [create], with the key the generator returned. *)
Lemma create_success
      (userId workspaceId : string) (dto : CreatePageDto)
      (w w' : World Entropy) (created : Page) :
  create generateJitteredKeyBetween gen_uuid userId workspaceId dto w
  = (Returned created, w') ->
  exists k e1,
    generateJitteredKeyBetween
      (last_position (cr_spaceId dto) (create_parent dto) (pages w))
      None (entropy w) = (Returned k, e1)
    /\ created = new_row (fst (gen_uuid e1))
                         (create_row userId workspaceId dto k)
    /\ pages w' = (pages w ++ [created])%list
    /\ (truthy (cr_parentPageId dto) = true ->
        find_row (str_of (cr_parentPageId dto)) (pages w) <> None).
Proof.
  rewrite create_eval. simpl.
  destruct (truthy (cr_parentPageId dto)); simpl.
  - destruct (find_row _ (pages w)); simpl; [|discriminate].
    destruct (generateJitteredKeyBetween _ _ _) as [[k|ex] e1];
      [|discriminate].
    intro H. injection H as <- <-. exists k, e1. simpl.
    repeat split. discriminate.
  - destruct (generateJitteredKeyBetween _ _ _) as [[k|ex] e1];
      [|discriminate].
    intro H. injection H as <- <-. exists k, e1. simpl.
    repeat split. discriminate.
Qed.

(** X13. The page [create] returns has the user as creator and last
    updater, the title, icon, parent and space of the request, the
    workspace of the call and no content yet.  If no row had its id, a
    lookup of that id now returns it; a lookup that found a row before
    still finds the same row. *)
Theorem create_then_lookup
        (userId workspace : string) (dto : CreatePageDto)
        (w w' : World Entropy) (created : Page) :
  create generateJitteredKeyBetween gen_uuid userId workspace dto w
  = (Returned created, w') ->
  (creatorId created = Some userId
   /\ lastUpdatedById created = Some userId
   /\ title created = to_column (cr_title dto)
   /\ icon created = to_column (cr_icon dto)
   /\ parentPageId created = to_column (cr_parentPageId dto)
   /\ spaceId created = cr_spaceId dto
   /\ workspaceId created = workspace
   /\ content created = None
   /\ textContent created = None
   /\ ydoc created = None)
  /\ (find_row (id created) (pages w) = None ->
      find_row (id created) (pages w') = Some created)
  /\ (forall i q, find_row i (pages w) = Some q ->
                  find_row i (pages w') = Some q).
Proof.
  intro Hrun.
  destruct (@create_success _ _ _ _ _ _ Hrun) as (k & e1 & _ & -> & -> & _).
  split; [simpl; repeat split|].
  split.
  - intro Hnew. rewrite find_row_app_new, Hnew.
    now rewrite String.eqb_refl.
  - intros i q Hq. now rewrite find_row_app_new, Hq.
Qed.

Lemma create_parent_to_column (dto : CreatePageDto) :
  cr_parentPageId dto <> Str "" ->
  create_parent dto = to_column (cr_parentPageId dto).
Proof.
  intro Hwf. unfold create_parent.
  destruct (truthy (cr_parentPageId dto)) eqn:Ht.
  - apply truthy_is_str in Ht. destruct Ht as (s & -> & _). reflexivity.
  - destruct (falsy_is_absent Ht Hwf) as [-> | ->]; reflexivity.
Qed.

(** X14. If the generator, given a left bound and no right bound, only
    returns keys strictly above the left bound, then a page created
    under a parent that is absent or a non-empty id comes last in the
    sidebar of its group: the ids of the group in sidebar order are
    those before the call, followed by the id of the new page. *)
Theorem create_appends_to_sidebar
        (userId workspaceId : string) (dto : CreatePageDto)
        (w w' : World Entropy) (created : Page) :
  (forall a e k e1,
      generateJitteredKeyBetween (Some a) None e = (Returned k, e1) ->
      String.ltb a k = true) ->
  cr_parentPageId dto <> Str "" ->
  create generateJitteredKeyBetween gen_uuid userId workspaceId dto w
  = (Returned created, w') ->
  map sr_id (sidebarQuery (cr_spaceId dto) (to_column (cr_parentPageId dto))
                          (pages w'))
  = (map sr_id (sidebarQuery (cr_spaceId dto)
                             (to_column (cr_parentPageId dto)) (pages w))
       ++ [id created])%list.
Proof.
  intros Hmono Hwf Hrun.
  destruct (@create_success _ _ _ _ _ _ Hrun)
    as (k & e1 & Hgen & Hcreated & -> & _).
  rewrite (create_parent_to_column _ Hwf) in Hgen.
  rewrite !sidebarQuery_ids, filter_app. simpl.
  assert (Hgroup : in_group (cr_spaceId dto)
                            (to_column (cr_parentPageId dto)) created = true).
  { subst created. unfold in_group. simpl. rewrite String.eqb_refl. simpl.
    now apply option_eqb_eq. }
  rewrite Hgroup.
  rewrite orderBy_app_last; [now rewrite map_app|].
  intros y Hy. simpl.
  assert (Hk : position created = k) by (now subst created).
  rewrite Hk.
  pose proof (lastPage_spec (cr_spaceId dto)
                            (to_column (cr_parentPageId dto)) (pages w))
    as Hlast.
  simpl in Hlast. unfold last_position in Hgen.
  destruct (executeTakeFirst _) as [lastPage|]; simpl in Hgen.
  - destruct Hlast as (last & _ & Hpos & Hmax).
    apply Hmono in Hgen. rewrite <- Hpos in Hgen.
    eapply string_leb_trans; [apply Hmax, Hy|].
    revert Hgen. unfold String.ltb, String.leb.
    now destruct (String.compare (position last) k).
  - rewrite Hlast in Hy. contradiction.
Qed.

Lemma filter_nonempty (A : Type) (f : A -> bool) (l : list A) (a : A) :
  In a l -> f a = true -> Nat.ltb 0 (List.length (filter f l)) = true.
Proof.
  intros Hin Hf.
  assert (H : In a (filter f l)) by (apply filter_In; auto).
  destruct (filter f l); [contradiction|reflexivity].
Qed.

(** X15. After a page is created under a parent with a non-empty id,
    the parent is stored and every row with the parent's id has
    children in the eyes of the sidebar. *)
Theorem create_marks_parent
        (userId workspaceId : string) (dto : CreatePageDto)
        (w w' : World Entropy) (created : Page) (parent : string) :
  cr_parentPageId dto = Str parent ->
  parent <> "" ->
  create generateJitteredKeyBetween gen_uuid userId workspaceId dto w
  = (Returned created, w') ->
  (exists p, find_row parent (pages w') = Some p)
  /\ forall p, In p (pages w') -> id p = parent ->
               withHasChildren (pages w') p = true.
Proof.
  intros Hparent Hne Hrun.
  destruct (@create_success _ _ _ _ _ _ Hrun)
    as (k & e1 & _ & Hcreated & Hw' & Hstored).
  rewrite Hparent in Hstored. simpl in Hstored.
  apply String.eqb_neq in Hne. rewrite Hne in Hstored.
  specialize (Hstored eq_refl).
  split.
  - destruct (find_row parent (pages w)) as [p|] eqn:Hp; [|contradiction].
    exists p. rewrite Hw', find_row_app_new, Hp. reflexivity.
  - intros p Hin Hid. unfold withHasChildren.
    apply (filter_nonempty _ _ created).
    + rewrite Hw'. apply in_or_app. right. now left.
    + subst created. simpl. rewrite Hparent, Hid. simpl.
      apply String.eqb_refl.
Qed.

End PageServiceOutcomes.

(** X16. The [hasChildren] flag of a row with a non-empty id is true
    exactly when the sidebar request for its children returns a row in
    some space: the flag counts children of every space, while the
    request lists those of one space. *)
Theorem hasChildren_iff_children_listed (table : list Page) (p : Page) :
  id p <> "" ->
  withHasChildren table p = true
  <-> exists space,
      sidebarQuery space
                   (sidebar_parent (mkSidebarPageDto space (Str (id p))))
                   table
      <> [].
Proof.
  intro Hne. unfold sidebar_parent. simpl.
  apply String.eqb_neq in Hne. rewrite Hne. simpl.
  unfold withHasChildren, sidebarQuery. split.
  - intro H.
    destruct (filter _ table) as [|c rest] eqn:Hf; [discriminate|].
    assert (Hc : In c (filter
                         (fun child => option_eqb (parentPageId child)
                                                  (Some (id p))) table))
      by (rewrite Hf; now left).
    apply filter_In in Hc. destruct Hc as [Hin Hpar].
    exists (spaceId c). intro Hnil.
    apply orderBy_nil_iff in Hnil. apply map_eq_nil in Hnil.
    assert (Hg : In c (filter (in_group (spaceId c) (Some (id p))) table)).
    { apply filter_In. split; [assumption|]. unfold in_group.
      now rewrite String.eqb_refl. }
    rewrite Hnil in Hg. contradiction.
  - intros [space Hrows].
    destruct (filter (in_group space (Some (id p))) table) as [|c rest]
      eqn:Hf; [now contradiction Hrows|].
    assert (Hc : In c (filter (in_group space (Some (id p))) table))
      by (rewrite Hf; now left).
    apply filter_In in Hc. destruct Hc as [Hin Hg].
    unfold in_group in Hg. apply andb_true_iff in Hg.
    now apply (filter_nonempty _ _ c).
Qed.

(* ================================================================== *)
(** * The service: parents *)

Section PageServiceParents.
Variable Entropy : Type.
Variable generateJitteredKeyBetween :
  option string -> option string -> M Entropy string.
Variable gen_uuid : Entropy -> string * Entropy.

Lemma find_row_stored (i : string) (table : list Page) :
  find_row i table <> None <-> In i (map id table).
Proof.
  split.
  - intro H. destruct (find_row i table) as [p|] eqn:Hp; [|contradiction].
    apply find_row_some in Hp. destruct Hp as [Hin <-].
    now apply in_map.
  - intros Hin Hnone. now apply find_row_none in Hnone.
Qed.

Lemma truthy_stored (v : MaybeStr) (table : list Page) (parent : string) :
  v <> Str "" ->
  (truthy v = true -> find_row (str_of v) table <> None) ->
  to_column v = Some parent ->
  In parent (map id table).
Proof.
  intros Hwf Hchecked Hcol.
  destruct v as [| |s]; simpl in Hcol; try discriminate.
  injection Hcol as ->.
  apply find_row_stored. apply Hchecked. simpl.
  destruct (parent =? "") eqn:E; [|reflexivity].
  apply String.eqb_eq in E. now subst.
Qed.

(** X18. If every parent named in the table is stored, this is still so
    after [create] and after [movePage], whatever their outcome, for a
    request whose [parentPageId] is not the empty string: the lookups of
    the parent are what keeps it. *)
Theorem parents_stay_stored (w : World Entropy) :
  parents_stored (pages w) ->
  (forall userId workspaceId dto,
      cr_parentPageId dto <> Str "" ->
      parents_stored
        (pages (snd (create generateJitteredKeyBetween gen_uuid userId
                            workspaceId dto w))))
  /\ (forall dto,
         mv_parentPageId dto <> Str "" ->
         parents_stored
           (pages (snd (movePage generateJitteredKeyBetween dto w)))).
Proof.
  intro Hinv. split.
  - intros userId workspaceId dto Hwf.
    destruct (create generateJitteredKeyBetween gen_uuid userId workspaceId
                     dto w) as [[created|ex] w'] eqn:Hrun; simpl.
    + destruct (@create_success _ _ _ _ _ _ _ _ _ Hrun)
        as (k & e1 & _ & Hcreated & Hw' & Hchecked).
      rewrite Hw'. intros p parent Hin Hpar.
      rewrite map_app. apply in_or_app. left.
      apply in_app_or in Hin. destruct Hin as [Hin|[<-|[]]].
      * eapply Hinv; eassumption.
      * subst created. simpl in Hpar.
        eapply truthy_stored; eassumption.
    + now rewrite (@create_failure_writes_nothing_aux _ _ _ _ _ _ _ _ _ Hrun).
  - intros dto Hwf.
    destruct (movePage generateJitteredKeyBetween dto w)
      as [[[]|ex] w'] eqn:Hrun; simpl.
    + destruct (@movePage_then_lookup_aux _ _ _ _ _ Hrun)
        as (moved & Hfind & _ & Hw').
      assert (Hchecked : strict_eq (of_column (parentPageId moved))
                                   (mv_parentPageId dto) = false ->
                         truthy (mv_parentPageId dto) = true ->
                         find_row (str_of (mv_parentPageId dto)) (pages w)
                         <> None).
      { intros Hneq Ht.
        assert (Hret : exists w'',
                   movePage generateJitteredKeyBetween dto w
                   = (Returned tt, w'')) by eauto.
        revert Hret. rewrite movePage_eval.
        destruct (generateJitteredKeyBetween _ _ _) as [[k|ex] e1];
          [|intros [? ?]; discriminate].
        simpl. rewrite Hfind, Hneq, Ht.
        destruct (find_row (str_of _) _); [discriminate|].
        intros [? ?]. discriminate. }
      rewrite Hw'. intros p parent Hin Hpar.
      rewrite map_id_update_rows.
      unfold update_rows in Hin. apply in_map_iff in Hin.
      destruct Hin as (q & Hq & Hin).
      destruct (id q =? mv_pageId dto); [|subst q; eapply Hinv; eassumption].
      subst p. unfold move_fields in Hpar. simpl in Hpar.
      destruct (strict_eq _ _) eqn:Hneq; simpl in Hpar;
        [eapply Hinv; eassumption|].
      destruct (mv_parentPageId dto) as [| |s] eqn:Hd; simpl in Hpar.
      * eapply Hinv; eassumption.
      * discriminate.
      * injection Hpar as ->. apply find_row_stored.
        apply (Hchecked eq_refl). simpl.
        destruct (parent =? "") eqn:E; [|reflexivity].
        apply String.eqb_eq in E. now subst.
    + now rewrite (@movePage_failure_aux _ _ _ _ _ _ Hrun).
Qed.

(** X19. Nothing stops a page from becoming its own parent: for a stored
    page with a non-empty id and a position the generator accepts, the
    move of the page under itself succeeds, and a lookup then returns
    the page with its own id as parent. *)
Theorem movePage_under_itself
        (w : World Entropy) (p : Page) (pos k : string) (e1 : Entropy) :
  id p <> "" ->
  find_row (id p) (pages w) = Some p ->
  generateJitteredKeyBetween (Some pos) None (entropy w) = (Returned k, e1) ->
  exists w' p',
    movePage generateJitteredKeyBetween
             (mkMovePageDto (id p) pos (Str (id p))) w
    = (Returned tt, w')
    /\ find_row (id p) (pages w') = Some p'
    /\ parentPageId p' = Some (id p)
    /\ position p' = pos.
Proof.
  intros Hne Hfind Hgen.
  assert (Hret : exists w',
             movePage generateJitteredKeyBetween
                      (mkMovePageDto (id p) pos (Str (id p))) w
             = (Returned tt, w')).
  { rewrite movePage_eval. simpl. rewrite Hgen, Hfind.
    apply String.eqb_neq in Hne. rewrite Hne. simpl.
    destruct (strict_eq _ _); eauto. }
  destruct Hret as (w' & Hrun). exists w'.
  destruct (@movePage_then_lookup_aux _ _ _ _ _ Hrun)
    as (moved & Hfind0 & Hfind' & _).
  simpl in Hfind0, Hfind'. rewrite Hfind in Hfind0. injection Hfind0 as <-.
  exists (moved_row (mkMovePageDto (id p) pos (Str (id p))) p).
  split; [assumption|]. split; [assumption|].
  unfold moved_row. simpl.
  destruct (strict_eq _ _) eqn:Heq; simpl; [|auto].
  apply strict_eq_true_iff in Heq.
  destruct (parentPageId p); simpl in Heq; [|discriminate].
  injection Heq as ->. auto.
Qed.

End PageServiceParents.

(* ================================================================== *)
(** * The comment list item: deleting a comment *)

Section CommentDeleteFacts.
Variable Content : Type.
Variable render_error : Exception -> string.
Variable Editor : Type.
Variable unsetComment : string -> Editor -> Outcome Editor.
Variable deleteMutateAsync : string -> Outcome unit.

(** X17. [handleDeleteComment] never throws and leaves [isEditing],
    [isLoading] and [content] alone.  When the delete mutation rejects,
    the editor is not touched and the failure is logged.  When it
    resolves, [unsetComment] is applied to the editor with the id of the
    comment, if an editor is mounted; if that command throws, the
    editor is as before and the throw is logged as a failed delete,
    although the comment has been deleted. *)
Theorem handleDeleteComment_outcome
        (comment : CommentListItem.IComment)
        (sc : CommentListItem.Scene Content Editor) :
  exists sc',
    CommentListItem.handleDeleteComment render_error unsetComment
                                        deleteMutateAsync comment sc
    = (Returned tt, sc')
    /\ CommentListItem.isEditing (CommentListItem.item sc')
       = CommentListItem.isEditing (CommentListItem.item sc)
    /\ CommentListItem.isLoading (CommentListItem.item sc')
       = CommentListItem.isLoading (CommentListItem.item sc)
    /\ CommentListItem.content (CommentListItem.item sc')
       = CommentListItem.content (CommentListItem.item sc)
    /\ let logged e :=
         (CommentListItem.console (CommentListItem.item sc)
            ++ [("Failed to delete comment:" ++ " "
                   ++ render_error e)%string])%list in
       match deleteMutateAsync (CommentListItem.comment_id comment) with
       | Thrown e =>
           CommentListItem.editor sc' = CommentListItem.editor sc
           /\ CommentListItem.console (CommentListItem.item sc') = logged e
       | Returned _ =>
           match CommentListItem.editor sc with
           | None => sc' = sc
           | Some ed =>
               match unsetComment (CommentListItem.comment_id comment) ed
               with
               | Returned ed' =>
                   CommentListItem.editor sc' = Some ed'
                   /\ CommentListItem.item sc' = CommentListItem.item sc
               | Thrown e =>
                   CommentListItem.editor sc' = Some ed
                   /\ CommentListItem.console (CommentListItem.item sc')
                      = logged e
               end
           end
       end.
Proof.
  unfold CommentListItem.handleDeleteComment,
    CommentListItem.editor_unsetComment, CommentListItem.in_item,
    CommentListItem.console_error, CommentListItem.await,
    try_catch, bind, modify.
  destruct sc as [it ed]. simpl.
  destruct (deleteMutateAsync _) as [[]|e]; simpl.
  - destruct ed as [ed|]; simpl.
    + destruct (unsetComment _ ed) as [ed'|e]; simpl;
        eexists; repeat split.
    + eexists; repeat split.
  - eexists; repeat split.
Qed.

End CommentDeleteFacts.

(* ------------------------------------------------------------------ *)
(** ** Handlers, one after the other *)

Section CommentInteractionFacts.
Variable Content : Type.
Variable JSON_stringify : Content -> string.
Variable render_error : Exception -> string.
Variable Editor : Type.
Variable unsetComment : string -> Editor -> Outcome Editor.

(** One event, run on an item that is not loading. *)
Lemma on_event_step (comment : CommentListItem.IComment)
      (ev : CommentListItem.Event Content)
      (sc : CommentListItem.Scene Content Editor) :
  CommentListItem.isLoading (CommentListItem.item sc) = false ->
  exists sc',
    CommentListItem.on_event JSON_stringify render_error unsetComment
                             comment ev sc
    = (Returned tt, sc')
    /\ CommentListItem.isLoading (CommentListItem.item sc') = false
    /\ CommentListItem.isEditing (CommentListItem.item sc')
       = editing_after (CommentListItem.isEditing (CommentListItem.item sc))
                       [ev]
    /\ CommentListItem.content (CommentListItem.item sc')
       = content_after (CommentListItem.content (CommentListItem.item sc))
                       [ev].
Proof.
  intro Hrest. destruct sc as [[editing loading c logs] ed].
  simpl in Hrest. subst loading.
  destruct ev as [|c'|[updated|e]|[[]|e]]; simpl;
    unfold CommentListItem.in_item, CommentListItem.handleEditToggle,
      CommentListItem.setContent, CommentListItem.handleUpdateComment,
      CommentListItem.handleDeleteComment,
      CommentListItem.editor_unsetComment,
      CommentListItem.setIsEditing, CommentListItem.setIsLoading,
      CommentListItem.console_error, CommentListItem.await,
      try_catch_finally, try_catch, bind, gets, modify; simpl;
    try (eexists; repeat split; fail).
  destruct ed as [ed|]; simpl; [|eexists; repeat split].
  destruct (unsetComment _ ed); simpl; eexists; repeat split.
Qed.

(** X20. Starting from an item that is not loading, any sequence of
    edit, editor-update, save and delete events, each run to its end,
    never throws and leaves the item not loading.  The item is then in
    editing mode exactly when the last event among the edit entries and
    the resolved saves is an edit entry (or, without any, when it was
    before): a rejected save and a delete never close the editor.  The
    content is the last one the editor reported. *)
Theorem on_events_settle (comment : CommentListItem.IComment)
        (evs : list (CommentListItem.Event Content))
        (sc : CommentListItem.Scene Content Editor) :
  CommentListItem.isLoading (CommentListItem.item sc) = false ->
  exists sc',
    CommentListItem.on_events JSON_stringify render_error unsetComment
                              comment evs sc
    = (Returned tt, sc')
    /\ CommentListItem.isLoading (CommentListItem.item sc') = false
    /\ CommentListItem.isEditing (CommentListItem.item sc')
       = editing_after (CommentListItem.isEditing (CommentListItem.item sc))
                       evs
    /\ CommentListItem.content (CommentListItem.item sc')
       = content_after (CommentListItem.content (CommentListItem.item sc))
                       evs.
Proof.
  revert sc. induction evs as [|ev evs IH]; intros sc Hrest.
  - exists sc. simpl. auto.
  - destruct (on_event_step comment ev sc Hrest)
      as (sc1 & Hstep & Hrest1 & Hediting & Hcontent).
    destruct (IH sc1 Hrest1) as (sc' & Hrun & Hrest' & Hediting' & Hcontent').
    exists sc'. split.
    + simpl. unfold bind. now rewrite Hstep.
    + split; [assumption|].
      rewrite Hediting', Hediting, Hcontent', Hcontent. simpl. auto.
Qed.

End CommentInteractionFacts.

(* ================================================================== *)
(** * More of the service on concrete requests *)

Lemma ltb_append (a : string) (c : ascii) (s : string) :
  String.ltb a (a ++ String c s) = true.
Proof.
  unfold String.ltb.
  induction a as [|x a IH]; simpl; [reflexivity|].
  assert (Hx : Ascii.compare x x = Eq)
    by (unfold Ascii.compare; apply N.compare_refl).
  now rewrite Hx.
Qed.

(** The sample generator returns a key strictly above its left bound. *)
Lemma sampleKeyBetween_above (a : string) (e : Demo.Entropy)
      (k : string) (e1 : Demo.Entropy) :
  Demo.sampleKeyBetween (Some a) None e = (Returned k, e1) ->
  String.ltb a k = true.
Proof.
  unfold Demo.sampleKeyBetween.
  destruct (Demo.plausible_key (Some a) && Demo.plausible_key None);
    [|discriminate].
  intro H. injection H as <- _. apply ltb_append.
Qed.

Lemma family_ids_unique : NoDup (map id Demo.family).
Proof.
  simpl. repeat constructor; simpl; intuition discriminate.
Qed.

Lemma sample_uuid_fresh (e : Demo.Entropy) :
  ~ In (fst (Demo.sample_uuid e)) (map id Demo.family).
Proof. simpl. intuition discriminate. Qed.

(** X1, on a request: moving the page ["id-9"], which is not stored. *)
Lemma movePage_failure_writes_nothing_witness :
  exists e w',
    movePage Demo.sampleKeyBetween (mkMovePageDto "id-9" "a2" Null)
             (Demo.world Demo.family)
    = (Thrown e, w')
    /\ e = NotFoundException "Moved page not found"
    /\ pages w' = Demo.family
    /\ filter is_write (calls w') = [].
Proof.
  destruct (movePage Demo.sampleKeyBetween (mkMovePageDto "id-9" "a2" Null)
                     (Demo.world Demo.family))
    as [[[]|e] w'] eqn:Hrun.
  - vm_compute in Hrun. discriminate Hrun.
  - exists e, w'. split; [reflexivity|].
    destruct (@movePage_failure_writes_nothing
                Demo.Entropy Demo.sampleKeyBetween
                (mkMovePageDto "id-9" "a2" Null)
                (Demo.world Demo.family) w' e Hrun)
      as (_ & Hpages & Hcalls).
    split; [|split; assumption].
    vm_compute in Hrun. now injection Hrun as <- _.
Defined.

(** X3, on a request: creating a page under ["id-9"], which is not
    stored. *)
Lemma create_failure_writes_nothing_witness :
  exists e w',
    create Demo.sampleKeyBetween Demo.sample_uuid "user-1" "workspace-1"
           (mkCreatePageDto (Str "Notes") Undefined (Str "id-9") "space-1")
           (Demo.world Demo.family)
    = (Thrown e, w')
    /\ pages w' = Demo.family
    /\ filter is_write (calls w') = [].
Proof.
  destruct (create Demo.sampleKeyBetween Demo.sample_uuid "user-1"
                   "workspace-1"
                   (mkCreatePageDto (Str "Notes") Undefined (Str "id-9")
                                    "space-1")
                   (Demo.world Demo.family))
    as [[created|e] w'] eqn:Hrun.
  - vm_compute in Hrun. discriminate Hrun.
  - exists e, w'. split; [reflexivity|].
    destruct (@create_failure_writes_nothing
                Demo.Entropy Demo.sampleKeyBetween Demo.sample_uuid
                "user-1" "workspace-1"
                (mkCreatePageDto (Str "Notes") Undefined (Str "id-9")
                                 "space-1")
                (Demo.world Demo.family) w' e Hrun)
      as (Hpages & Hcalls & _).
    split; assumption.
Defined.

(** X6, on a request: the sample table has unique ids and the sample
    ids are new to it. *)
Lemma create_keeps_ids_unique_witness :
  NoDup (map id
             (pages (snd (create Demo.sampleKeyBetween Demo.sample_uuid
                                 "user-1" "workspace-1"
                                 (mkCreatePageDto (Str "Notes") Undefined
                                                  (Str "id-0") "space-1")
                                 (Demo.world Demo.family))))).
Proof.
  apply (@create_keeps_ids_unique
           Demo.Entropy Demo.sampleKeyBetween Demo.sample_uuid
           "user-1" "workspace-1"
           (mkCreatePageDto (Str "Notes") Undefined (Str "id-0") "space-1")
           (Demo.world Demo.family)).
  - exact family_ids_unique.
  - exact sample_uuid_fresh.
Defined.

(** X7, on a request: moving ["id-1"] under ["id-2"]. *)
Lemma movePage_then_lookup_witness :
  exists w',
    movePage Demo.sampleKeyBetween (mkMovePageDto "id-1" "a5" (Str "id-2"))
             (Demo.world Demo.family)
    = (Returned tt, w')
    /\ find_row "id-1" (pages w')
       = Some (Demo.samplePage "id-1" "a5" (Some "id-2"))
    /\ find_row "id-3" (pages w')
       = Some (Demo.samplePage "id-3" "a1" (Some "id-0")).
Proof.
  destruct (movePage Demo.sampleKeyBetween
                     (mkMovePageDto "id-1" "a5" (Str "id-2"))
                     (Demo.world Demo.family))
    as [[[]|ex] w'] eqn:Hrun.
  - exists w'. split; [reflexivity|].
    destruct (@movePage_then_lookup
                Demo.Entropy Demo.sampleKeyBetween
                (mkMovePageDto "id-1" "a5" (Str "id-2"))
                (Demo.world Demo.family) w' Hrun)
      as ((moved & Hfind & Hfind') & Hother).
    vm_compute in Hfind. injection Hfind as <-.
    split; [exact Hfind'|].
    rewrite (Hother "id-3"); [reflexivity|discriminate].
  - vm_compute in Hrun. discriminate Hrun.
Defined.

(** X8, on a request: the same move of ["id-1"], twice. *)
Lemma movePage_idempotent_witness :
  exists w1 w2,
    movePage Demo.sampleKeyBetween (mkMovePageDto "id-1" "a5" (Str "id-2"))
             (Demo.world Demo.family)
    = (Returned tt, w1)
    /\ movePage Demo.sampleKeyBetween
                (mkMovePageDto "id-1" "a5" (Str "id-2")) w1
       = (Returned tt, w2)
    /\ pages w2 = pages w1.
Proof.
  destruct (movePage Demo.sampleKeyBetween
                     (mkMovePageDto "id-1" "a5" (Str "id-2"))
                     (Demo.world Demo.family))
    as [[[]|ex] w1] eqn:Hfirst;
    [|vm_compute in Hfirst; discriminate Hfirst].
  destruct (movePage Demo.sampleKeyBetween
                     (mkMovePageDto "id-1" "a5" (Str "id-2")) w1)
    as [[[]|ex] w2] eqn:Hsecond.
  - exists w1, w2. split; [reflexivity|]. split; [exact Hsecond|].
    exact (@movePage_idempotent
             Demo.Entropy Demo.sampleKeyBetween
             (mkMovePageDto "id-1" "a5" (Str "id-2"))
             (Demo.world Demo.family) w1 w2 Hfirst Hsecond).
  - vm_compute in Hfirst. injection Hfirst as <-.
    vm_compute in Hsecond. discriminate Hsecond.
Defined.

(** X9, on a request: moving ["id-1"] under ["id-2"] and back under
    ["id-0"] at ["a0"]. *)
Lemma movePage_undo_witness :
  exists w1 w2,
    movePage Demo.sampleKeyBetween (mkMovePageDto "id-1" "a5" (Str "id-2"))
             (Demo.world Demo.family)
    = (Returned tt, w1)
    /\ movePage Demo.sampleKeyBetween
                (mkMovePageDto "id-1" "a0" (Str "id-0")) w1
       = (Returned tt, w2)
    /\ pages w2 = Demo.family.
Proof.
  destruct (movePage Demo.sampleKeyBetween
                     (mkMovePageDto "id-1" "a5" (Str "id-2"))
                     (Demo.world Demo.family))
    as [[[]|ex] w1] eqn:Hfirst;
    [|vm_compute in Hfirst; discriminate Hfirst].
  destruct (movePage Demo.sampleKeyBetween
                     (mkMovePageDto "id-1" "a0" (Str "id-0")) w1)
    as [[[]|ex] w2] eqn:Hback.
  - exists w1, w2. split; [reflexivity|]. split; [exact Hback|].
    apply (@movePage_undo
             Demo.Entropy Demo.sampleKeyBetween
             (mkMovePageDto "id-1" "a5" (Str "id-2"))
             (Demo.world Demo.family) w1 w2
             (Demo.samplePage "id-1" "a0" (Some "id-0"))).
    + exact family_ids_unique.
    + reflexivity.
    + exact Hfirst.
    + exact Hback.
  - vm_compute in Hfirst. injection Hfirst as <-.
    vm_compute in Hback. discriminate Hback.
Defined.

(** X10, on a request: updating ["id-9"], which is not stored. *)
Lemma update_of_missing_page_witness :
  fst (update "id-9" (mkUpdatePageDto (Str "Title") Undefined) "user-2"
              (Demo.world Demo.family))
  = Returned None
  /\ pages (snd (update "id-9" (mkUpdatePageDto (Str "Title") Undefined)
                        "user-2" (Demo.world Demo.family)))
     = Demo.family
  /\ pages (snd (updateState "id-9" (Str "{}") "text" Undefined
                             (Str "user-2") (Demo.world Demo.family)))
     = Demo.family.
Proof.
  destruct (@update_of_missing_page Demo.Entropy (Demo.world Demo.family)
                                    "id-9" eq_refl) as [Hupdate Hstate].
  destruct (Hupdate (mkUpdatePageDto (Str "Title") Undefined) "user-2")
    as [Hnull Hpages].
  destruct (Hstate (Str "{}") "text" Undefined (Str "user-2")) as [_ Hpages'].
  auto.
Defined.


(** X12, on a request: saving the state of ["id-1"] without a user. *)
Lemma updateState_then_lookup_witness :
  exists p',
    find_row "id-1"
             (pages (snd (updateState "id-1" (Str "{}") "text" Undefined
                                      Undefined (Demo.world Demo.family))))
    = Some p'
    /\ content p' = Some "{}"
    /\ textContent p' = Some "text"
    /\ ydoc p' = None
    /\ lastUpdatedById p' = Some "user-1".
Proof.
  destruct (@updateState_then_lookup
              Demo.Entropy (Demo.world Demo.family) "id-1" (Str "{}") "text"
              Undefined Undefined
              (Demo.samplePage "id-1" "a0" (Some "id-0")) eq_refl)
    as (p' & Hfind & Hc & Ht & Hy & Hu & _).
  exists p'. auto.
Defined.

(** X13, on a request: creating a page under ["id-0"] and looking it
    up. *)
Lemma create_then_lookup_witness :
  exists created w',
    create Demo.sampleKeyBetween Demo.sample_uuid "user-1" "workspace-1"
           (mkCreatePageDto (Str "Notes") Undefined (Str "id-0") "space-1")
           (Demo.world Demo.family)
    = (Returned created, w')
    /\ id created = "new-0"
    /\ creatorId created = Some "user-1"
    /\ find_row "new-0" (pages w') = Some created.
Proof.
  destruct (create Demo.sampleKeyBetween Demo.sample_uuid "user-1"
                   "workspace-1"
                   (mkCreatePageDto (Str "Notes") Undefined (Str "id-0")
                                    "space-1")
                   (Demo.world Demo.family))
    as [[created|ex] w'] eqn:Hrun.
  - exists created, w'. split; [reflexivity|].
    destruct (@create_then_lookup
                Demo.Entropy Demo.sampleKeyBetween Demo.sample_uuid
                "user-1" "workspace-1"
                (mkCreatePageDto (Str "Notes") Undefined (Str "id-0")
                                 "space-1")
                (Demo.world Demo.family) w' created Hrun)
      as ((Hcreator & _) & Hnew & _).
    assert (Hid : id created = "new-0")
      by (vm_compute in Hrun; now injection Hrun as <- _).
    rewrite Hid in Hnew. auto.
  - vm_compute in Hrun. discriminate Hrun.
Defined.

(** X14, on a request: the new child of ["id-0"] comes after ["id-1"]
    and ["id-3"]. *)
Lemma create_appends_to_sidebar_witness :
  exists created w',
    create Demo.sampleKeyBetween Demo.sample_uuid "user-1" "workspace-1"
           (mkCreatePageDto (Str "Notes") Undefined (Str "id-0") "space-1")
           (Demo.world Demo.family)
    = (Returned created, w')
    /\ map sr_id (sidebarQuery "space-1" (Some "id-0") (pages w'))
       = ["id-1"; "id-3"; id created].
Proof.
  destruct (create Demo.sampleKeyBetween Demo.sample_uuid "user-1"
                   "workspace-1"
                   (mkCreatePageDto (Str "Notes") Undefined (Str "id-0")
                                    "space-1")
                   (Demo.world Demo.family))
    as [[created|ex] w'] eqn:Hrun.
  - exists created, w'. split; [reflexivity|].
    assert (Hwf : Str "id-0" <> Str "") by discriminate.
    exact (@create_appends_to_sidebar
             Demo.Entropy Demo.sampleKeyBetween Demo.sample_uuid
             "user-1" "workspace-1"
             (mkCreatePageDto (Str "Notes") Undefined (Str "id-0") "space-1")
             (Demo.world Demo.family) w' created
             sampleKeyBetween_above Hwf Hrun).
  - vm_compute in Hrun. discriminate Hrun.
Defined.

(** X15, on a request: ["id-2"] has no child until a page is created
    under it. *)
Lemma create_marks_parent_witness :
  withHasChildren Demo.family (Demo.samplePage "id-2" "a1" None) = false
  /\ exists created w',
      create Demo.sampleKeyBetween Demo.sample_uuid "user-1" "workspace-1"
             (mkCreatePageDto (Str "Notes") Undefined (Str "id-2") "space-1")
             (Demo.world Demo.family)
      = (Returned created, w')
      /\ withHasChildren (pages w') (Demo.samplePage "id-2" "a1" None)
         = true.
Proof.
  split; [reflexivity|].
  destruct (create Demo.sampleKeyBetween Demo.sample_uuid "user-1"
                   "workspace-1"
                   (mkCreatePageDto (Str "Notes") Undefined (Str "id-2")
                                    "space-1")
                   (Demo.world Demo.family))
    as [[created|ex] w'] eqn:Hrun.
  - exists created, w'. split; [reflexivity|].
    assert (Hne : "id-2" <> "") by discriminate.
    destruct (@create_marks_parent
                Demo.Entropy Demo.sampleKeyBetween Demo.sample_uuid
                "user-1" "workspace-1"
                (mkCreatePageDto (Str "Notes") Undefined (Str "id-2")
                                 "space-1")
                (Demo.world Demo.family) w' created "id-2"
                eq_refl Hne Hrun)
      as (_ & Hflag).
    apply Hflag; [|reflexivity].
    vm_compute in Hrun. injection Hrun as _ <-. simpl. auto.
  - vm_compute in Hrun. discriminate Hrun.
Defined.

(** X16, on a row: ["id-0"] has children, and they are listed in
    ["space-1"]. *)
Lemma hasChildren_iff_children_listed_witness :
  withHasChildren Demo.family (Demo.samplePage "id-0" "a0" None) = true
  <-> exists space,
      sidebarQuery space
                   (sidebar_parent (mkSidebarPageDto space (Str "id-0")))
                   Demo.family
      <> [].
Proof.
  apply (hasChildren_iff_children_listed
           Demo.family (Demo.samplePage "id-0" "a0" None)).
  discriminate.
Defined.

Lemma family_parents_stored : parents_stored Demo.family.
Proof.
  intros p parent Hin Hpar. simpl in Hin.
  destruct Hin as [<-|[<-|[<-|[<-|[]]]]]; simpl in Hpar;
    try discriminate; injection Hpar as <-; simpl; auto.
Qed.

(** X18, on requests: creating under ["id-2"] and moving ["id-3"] to
    the root of the sample table. *)
Lemma parents_stay_stored_witness :
  parents_stored
    (pages (snd (create Demo.sampleKeyBetween Demo.sample_uuid "user-1"
                        "workspace-1"
                        (mkCreatePageDto (Str "Notes") Undefined
                                         (Str "id-2") "space-1")
                        (Demo.world Demo.family))))
  /\ parents_stored
       (pages (snd (movePage Demo.sampleKeyBetween
                             (mkMovePageDto "id-3" "a2" Null)
                             (Demo.world Demo.family)))).
Proof.
  destruct (@parents_stay_stored
              Demo.Entropy Demo.sampleKeyBetween Demo.sample_uuid
              (Demo.world Demo.family) family_parents_stored)
    as [Hcreate Hmove].
  split.
  - apply Hcreate. discriminate.
  - apply Hmove. discriminate.
Defined.

(** X19, on a request: moving ["id-2"] under ["id-2"]. *)
Lemma movePage_under_itself_witness :
  exists w' p',
    movePage Demo.sampleKeyBetween (mkMovePageDto "id-2" "a7" (Str "id-2"))
             (Demo.world Demo.family)
    = (Returned tt, w')
    /\ find_row "id-2" (pages w') = Some p'
    /\ parentPageId p' = Some "id-2"
    /\ position p' = "a7".
Proof.
  assert (Hne : "id-2" <> "") by discriminate.
  exact (@movePage_under_itself
           Demo.Entropy Demo.sampleKeyBetween (Demo.world Demo.family)
           (Demo.samplePage "id-2" "a1" None) "a7" "a7V" 1
           Hne eq_refl eq_refl).
Defined.

(** X20, on a sequence: opening the editor, typing, a save that is
    rejected and a save that resolves. *)
Lemma on_events_settle_witness :
  exists sc',
    CommentListItem.on_events
      (fun c : string => c) (fun _ => "Error: network")
      (fun (_ : string) (ed : list string) => Returned ed)
      (CommentListItem.mkIComment "c-1" "id-0")
      [CommentListItem.EditToggle string;
       CommentListItem.EditorUpdate "edited";
       CommentListItem.Save string (Thrown (Error "network"));
       CommentListItem.Save string
         (Returned (CommentListItem.mkIComment "c-1" "id-0"))]
      (CommentListItem.mkScene
         (CommentListItem.mkState false false "original" [])
         (Some ["c-1"]))
    = (Returned tt, sc')
    /\ CommentListItem.isLoading (CommentListItem.item sc') = false
    /\ CommentListItem.isEditing (CommentListItem.item sc') = false
    /\ CommentListItem.content (CommentListItem.item sc') = "edited".
Proof.
  exact (@on_events_settle
           string (fun c : string => c) (fun _ => "Error: network")
           (list string) (fun (_ : string) (ed : list string) => Returned ed)
           (CommentListItem.mkIComment "c-1" "id-0")
           [CommentListItem.EditToggle string;
            CommentListItem.EditorUpdate "edited";
            CommentListItem.Save string (Thrown (Error "network"));
            CommentListItem.Save string
              (Returned (CommentListItem.mkIComment "c-1" "id-0"))]
           (CommentListItem.mkScene
              (CommentListItem.mkState false false "original" [])
              (Some ["c-1"]))
           eq_refl).
Defined.
